(** * Complex-valued ResNet assembly: layer naming, strides, shortcuts, presets

    A shallow embedding of
      - [models/resnet_blocks_3d.py]  ([basic_3d], [bottleneck_3d]) and
      - [models/resnet_models_2d.py]  ([ResNet2D] and its depth presets).

    The Keras graph is symbolic: a tensor is the history of layer calls that
    produced it, and building a network is a sequence of layer creations.  The
    embedding keeps both: tensors are terms over layers, and construction runs
    in a small monad that records every layer it creates, in order, and may
    stop with a Python exception.  Shapes and numerics of the layers are not
    modelled. *)

From Stdlib Require Import ZArith NArith List String Ascii Bool Lia.
From Stdlib Require Import DecimalString DecimalZ DecimalPos.
Import ListNotations.

Local Open Scope Z_scope.

(** ** Python strings *)

(** A Python [str] is a sequence of Unicode code points. *)
Definition str := list N.

Definition lit (s : string) : str :=
  map N_of_ascii (list_ascii_of_string s).

Fixpoint str_eqb (a b : str) : bool :=
  match a, b with
  | [], [] => true
  | x :: a', y :: b' => N.eqb x y && str_eqb a' b'
  | _, _ => false
  end.

(** [s.startswith(p)] *)
Fixpoint startswith (s p : str) : bool :=
  match p, s with
  | [], _ => true
  | y :: p', x :: s' => N.eqb x y && startswith s' p'
  | _ :: _, [] => false
  end.

(** [str(z)] for a Python int: decimal, with a leading minus sign if negative. *)
Definition str_of_Z (z : Z) : str :=
  lit (NilEmpty.string_of_int (Z.to_int z)).

(** ** Exceptions and the construction monad *)

Inductive error := ValueError | IndexError | AssertionError | OverflowError.

Inductive result (A : Type) :=
| Ok (a : A)
| Raise (e : error).
Arguments Ok {A} a.
Arguments Raise {A} e.

(** ** Layers and symbolic tensors *)

(** An argument that Keras accepts as an int or as a tuple of ints. *)
Inductive size_arg :=
| Int (n : Z)
| Tuple (l : list Z).

(** The layers the two modules create, with the arguments the source passes.
    An omitted keyword argument is [None].  The float constants
    ([epsilon=1e-5] of every normalization, [gamma=[0.25, 0.25]] of the
    spectral pooling) are the same at every call and are left out. *)
Inductive layer :=
| ZeroPadding3D (padding : Z) (name : str)
| ComplexConv3D (filters : Z) (kernel_size : size_arg) (strides : option size_arg)
    (use_bias spectral_parametrization : bool) (name : str)
| ComplexConv2D (filters : Z) (kernel_size : size_arg) (strides : size_arg)
    (padding : str) (use_bias spectral_parametrization : bool) (name : str)
| ComplexBatchNormalization (axis : Z) (name : str)
| Activation (activation : str) (name : str)
| Add (name : str)
| ComplexMaxPooling2D (pool_size strides : option size_arg) (padding : option str)
    (name : str)
| ComplexAveragePooling2D (pool_size strides : option size_arg) (padding : option str)
    (name : str)
| GlobalAveragePooling2D (name : str)
| SpectralPooling2D (name : str)
| Flatten
| ComplexDense (units : Z) (activation : str) (name : str)
| Dense (units : Z) (activation : str) (name : str).

(** The name given by the source; [Flatten()] is created without one. *)
Definition layer_name (l : layer) : option str :=
  match l with
  | ZeroPadding3D _ n | ComplexConv3D _ _ _ _ _ n | ComplexConv2D _ _ _ _ _ _ n
  | ComplexBatchNormalization _ n | Activation _ n | Add n
  | ComplexMaxPooling2D _ _ _ n | ComplexAveragePooling2D _ _ _ n
  | GlobalAveragePooling2D n | SpectralPooling2D n
  | ComplexDense _ _ n | Dense _ _ n => Some n
  | Flatten => None
  end.

(** A symbolic tensor: a placeholder, or the output of a layer applied to
    its inbound tensors. *)
#[warnings="-register-all"]
Inductive tensor :=
| Placeholder (id : N)
| Out (l : layer) (inbound : list tensor).

Fixpoint tsize (t : tensor) : nat :=
  match t with
  | Placeholder _ => 1%nat
  | Out _ ts => S (list_sum (map tsize ts))
  end.

(** Construction: a result or an exception, and the layers created so far. *)
Definition M (A : Type) : Type := (result A * list layer)%type.

Definition ret {A} (a : A) : M A := (Ok a, []).

Definition raise {A} (e : error) : M A := (Raise e, []).

Definition bind {A B} (m : M A) (f : A -> M B) : M B :=
  match m with
  | (Ok a, w) => let (r, w') := f a in (r, w ++ w')
  | (Raise e, w) => (Raise e, w)
  end.

Declare Scope construct_scope.
Delimit Scope construct_scope with construct.
Notation "x <- m ;; k" := (bind m (fun x => k))
  (at level 100, m at next level, right associativity) : construct_scope.
Notation "m ;;; k" := (bind m (fun _ => k))
  (at level 100, right associativity) : construct_scope.
Local Open Scope construct_scope.

(** [layer(...)(inbound)]: create the layer and apply it. *)
Definition call (l : layer) (inbound : list tensor) : M tensor :=
  (Ok (Out l inbound), [l]).

Definition created {A} (m : M A) : list layer := snd m.

Definition names_of (w : list layer) : list str :=
  flat_map (fun l => match layer_name l with Some n => [n] | None => [] end) w.

(** The layer names generated by a construction. *)
Definition names {A} (m : M A) : list str := names_of (created m).

(** ** Python built-ins used by the source *)

(** [chr(i)]: one code point.  CPython converts the argument to a C [int]
    first, with an [OverflowError] when it does not fit; an argument that fits
    but lies outside [range(0x110000)] is a [ValueError]. *)
Definition chr (i : Z) : M str :=
  if (i <? -2147483648) || (2147483647 <? i) then raise OverflowError
  else if (0 <=? i) && (i <? 1114112) then ret [Z.to_N i]
  else raise ValueError.

(** [ord('a')] *)
Definition ord_a : Z := 97.

(** [l[i]]: a negative index counts from the end, [IndexError] out of range. *)
Definition getitem {A} (l : list A) (i : Z) : M A :=
  let j := if i <? 0 then i + Z.of_nat (List.length l) else i in
  if j <? 0 then raise IndexError
  else match nth_error l (Z.to_nat j) with
       | Some a => ret a
       | None => raise IndexError
       end.

(** [range(n)] *)
Definition range (n : Z) : list Z := map Z.of_nat (seq 0 (Z.to_nat n)).

(** [enumerate(l)] *)
Definition enumerate {A} (l : list A) : list (Z * A) :=
  combine (map Z.of_nat (seq 0 (List.length l))) l.

(** [assert b] *)
Definition assert (b : bool) : M unit :=
  if b then ret tt else raise AssertionError.

(** Modelled from the spec: [layer_activation] of [layers/activations.py] is
    not among the sources.  The spec describes it as the activation-selection
    helper that maps an activation name to a transform, tensor in, tensor out;
    it is taken to create one activation layer carrying the name it is given. *)
Definition layer_activation (x : tensor) (activation name : str) : M tensor :=
  call (Activation activation name) [x].

(** ** resnet_blocks_3d.py *)

Section Blocks.

(** [keras.backend.image_data_format()] *)
Variable image_data_format : str.

(** [-1 if keras.backend.image_data_format() == "channels_last" else 1] *)
Definition bn_axis : Z :=
  if str_eqb image_data_format (lit "channels_last") then -1 else 1.

(** Lines 53-57 and 136-140: the stride of the first convolution and of the
    shortcut. *)
Definition resolve_stride (stride : option size_arg) (stage block : Z) : size_arg :=
  match stride with
  | None => if negb (block =? 0) || (stage =? 0) then Int 1 else Int 2
  | Some s => s
  end.

(** Lines 61-64 and 144-147. *)
Definition block_char (block : Z) (numerical_name : bool) : M str :=
  if (0 <? block) && numerical_name
  then ret (lit "b" ++ str_of_Z block)
  else chr (ord_a + block).

(** Line 66 and 149. *)
Definition stage_char (stage : Z) : str := str_of_Z (stage + 2).

Definition basic_3d (filters stage block : Z) (kernel_size : size_arg)
    (numerical_name : bool) (stride : option size_arg) (activation : str)
    : M (tensor -> M tensor) :=
  let stride := resolve_stride stride stage block in
  let axis := bn_axis in
  block_char <- block_char block numerical_name ;;
  let stage_char := stage_char stage in
  ret (fun inputs =>
    outputs <- call (ZeroPadding3D 1
        (lit "padding" ++ stage_char ++ block_char ++ lit "_branch2a")) [inputs] ;;
    outputs <- call (ComplexConv3D filters kernel_size (Some stride) false false
        (lit "res" ++ stage_char ++ block_char ++ lit "_branch2a")) [outputs] ;;
    outputs <- call (ComplexBatchNormalization axis
        (lit "bn" ++ stage_char ++ block_char ++ lit "_branch2a")) [outputs] ;;
    outputs <- layer_activation outputs activation
        (lit "res" ++ stage_char ++ block_char ++ lit "_branch2a_" ++ activation) ;;
    outputs <- call (ZeroPadding3D 1
        (lit "padding" ++ stage_char ++ block_char ++ lit "_branch2b")) [outputs] ;;
    outputs <- call (ComplexConv3D filters kernel_size None false false
        (lit "res" ++ stage_char ++ block_char ++ lit "_branch2b")) [outputs] ;;
    outputs <- call (ComplexBatchNormalization axis
        (lit "bn" ++ stage_char ++ block_char ++ lit "_branch2b")) [outputs] ;;
    shortcut <-
      (if block =? 0 then
         shortcut <- call (ComplexConv3D filters (Tuple [1; 1]) (Some stride) false false
             (lit "res" ++ stage_char ++ block_char ++ lit "_branch1")) [inputs] ;;
         call (ComplexBatchNormalization axis
             (lit "bn" ++ stage_char ++ block_char ++ lit "_branch1")) [shortcut]
       else ret inputs) ;;
    outputs <- call (Add (lit "res" ++ stage_char ++ block_char)) [outputs; shortcut] ;;
    layer_activation outputs activation
        (lit "res" ++ stage_char ++ block_char ++ lit "_" ++ activation)).

Definition bottleneck_3d (filters stage block : Z) (kernel_size : size_arg)
    (numerical_name : bool) (stride : option size_arg) (activation : str)
    : M (tensor -> M tensor) :=
  let stride := resolve_stride stride stage block in
  let axis := bn_axis in
  block_char <- block_char block numerical_name ;;
  let stage_char := stage_char stage in
  ret (fun inputs =>
    outputs <- call (ComplexConv3D filters (Int 1) (Some stride) false false
        (lit "res" ++ stage_char ++ block_char ++ lit "_branch2a")) [inputs] ;;
    outputs <- call (ComplexBatchNormalization axis
        (lit "bn" ++ stage_char ++ block_char ++ lit "_branch2a")) [outputs] ;;
    outputs <- layer_activation outputs activation
        (lit "res" ++ stage_char ++ block_char ++ lit "_branch2a_" ++ activation) ;;
    outputs <- call (ZeroPadding3D 1
        (lit "padding" ++ stage_char ++ block_char ++ lit "_branch2b")) [outputs] ;;
    outputs <- call (ComplexConv3D filters kernel_size None false false
        (lit "res" ++ stage_char ++ block_char ++ lit "_branch2b")) [outputs] ;;
    outputs <- call (ComplexBatchNormalization axis
        (lit "bn" ++ stage_char ++ block_char ++ lit "_branch2b")) [outputs] ;;
    outputs <- layer_activation outputs activation
        (lit "res" ++ stage_char ++ block_char ++ lit "_branch2b_" ++ activation) ;;
    outputs <- call (ComplexConv3D (filters * 4) (Int 1) (Some (Tuple [1; 1])) false false
        (lit "res" ++ stage_char ++ block_char ++ lit "_branch2c")) [outputs] ;;
    outputs <- call (ComplexBatchNormalization axis
        (lit "bn" ++ stage_char ++ block_char ++ lit "_branch2c")) [outputs] ;;
    shortcut <-
      (if block =? 0 then
         shortcut <- call (ComplexConv3D (filters * 4) (Tuple [1; 1]) (Some stride) false false
             (lit "res" ++ stage_char ++ block_char ++ lit "_branch1")) [inputs] ;;
         call (ComplexBatchNormalization axis
             (lit "bn" ++ stage_char ++ block_char ++ lit "_branch1")) [shortcut]
       else ret inputs) ;;
    outputs <- call (Add (lit "res" ++ stage_char ++ block_char)) [outputs; shortcut] ;;
    layer_activation outputs activation
        (lit "res" ++ stage_char ++ block_char ++ lit "_" ++ activation)).

End Blocks.

(** ** resnet_models_2d.py *)

(** What the assembler expects of its [block_func] argument: it is called as
    [block_func(n_filters, stage_id, block_id, numerical_name=..., activation=...)]
    and the function it returns is applied to the current tensor. *)
Definition block_builder : Type :=
  Z -> Z -> Z -> bool -> str -> M (tensor -> M tensor).

(** A builder of [resnet_blocks_3d.py] called the way the assembler calls its
    [block_func]: [kernel_size] and [stride] keep their defaults [3] and
    [None]. *)
Definition as_block_func
    (builder : Z -> Z -> Z -> size_arg -> bool -> option size_arg -> str
               -> M (tensor -> M tensor)) : block_builder :=
  fun filters stage block numerical_name activation =>
    builder filters stage block (Int 3) numerical_name None activation.

(** [keras.Model(inputs=..., outputs=...)]: one output tensor, or a list. *)
Inductive Model :=
| KerasModel (inputs : tensor) (outputs : tensor + list tensor).

Section Models.

Variable image_data_format : str.

(** [keras.backend.ndim] *)
Variable K_ndim : tensor -> Z.

(** Lines 75-85: the stem. *)
Definition stem (inputs : tensor) (activation : str) (n_filters : Z)
    (pooling_func : list str) : M tensor :=
  let axis := bn_axis image_data_format in
  x_complex <- call (ComplexConv2D n_filters (Int 7) (Tuple [2; 2]) (lit "same")
      false false (lit "conv1")) [inputs] ;;
  x_complex <- call (ComplexBatchNormalization axis (lit "bn_conv1")) [x_complex] ;;
  x_complex <- layer_activation x_complex activation (lit "conv1_" ++ activation) ;;
  p <- getitem pooling_func 0 ;;
  if str_eqb p (lit "max") then
    call (ComplexMaxPooling2D (Some (Tuple [3; 3])) (Some (Tuple [2; 2]))
        (Some (lit "same")) (lit "pool1")) [x_complex]
  else
    p <- getitem pooling_func 0 ;;
    if str_eqb p (lit "average") then
      call (ComplexAveragePooling2D (Some (Tuple [3; 3])) (Some (Tuple [2; 2]))
          (Some (lit "same")) (lit "pool1")) [x_complex]
    else ret x_complex.

(** Lines 90-97: the blocks of one stage. *)
Fixpoint for_block_id (block_func : block_builder) (n_filters stage_id : Z)
    (numerical_names : list bool) (activation : str)
    (block_ids : list Z) (x_complex : tensor) : M tensor :=
  match block_ids with
  | [] => ret x_complex
  | block_id :: block_ids' =>
      numerical_name <-
        (if 0 <? block_id then getitem numerical_names stage_id else ret false) ;;
      f <- block_func n_filters stage_id block_id numerical_name activation ;;
      x_complex <- f x_complex ;;
      for_block_id block_func n_filters stage_id numerical_names activation
        block_ids' x_complex
  end.

(** Lines 89-101: the stages. *)
Fixpoint for_stage_id (block_func : block_builder)
    (numerical_names : list bool) (activation : str)
    (stages : list (Z * Z)) (n_filters : Z) (x_complex : tensor)
    (outputs : list tensor) : M (tensor * list tensor) :=
  match stages with
  | [] => ret (x_complex, outputs)
  | (stage_id, iterations) :: stages' =>
      x_complex <- for_block_id block_func n_filters stage_id numerical_names
                     activation (range iterations) x_complex ;;
      let n_filters := n_filters * 2 in
      let outputs := outputs ++ [x_complex] in
      for_stage_id block_func numerical_names activation stages' n_filters
        x_complex outputs
  end.

(** Lines 104-124: the classification head. *)
Definition top (pooling_func : list str) (classes : Z)
    (output_activation : option str) (x_complex : tensor) : M tensor :=
  assert (0 <? classes) ;;;
  x_complex <-
    (p <- getitem pooling_func 1 ;;
     if str_eqb p (lit "global_average") then
       call (GlobalAveragePooling2D (lit "pool5")) [x_complex]
     else
       p <- getitem pooling_func 1 ;;
       if str_eqb p (lit "complex_average") then
         call (ComplexAveragePooling2D None None None (lit "pool5")) [x_complex]
       else
         p <- getitem pooling_func 1 ;;
         if str_eqb p (lit "complex_max") then
           call (ComplexMaxPooling2D None None None (lit "pool5")) [x_complex]
         else
           p <- getitem pooling_func 1 ;;
           if str_eqb p (lit "spectral_average") then
             call (SpectralPooling2D (lit "pool5")) [x_complex]
           else ret x_complex) ;;
  let output_activation :=
    match output_activation with
    | None => lit "softmax"
    | Some a => a
    end in
  x_complex <-
    (if 2 <? K_ndim x_complex then call Flatten [x_complex] else ret x_complex) ;;
  if startswith output_activation (lit "complex_") then
    let output_activation :=
      skipn (List.length (lit "complex_")) output_activation in
    call (ComplexDense classes output_activation (lit "fc" ++ str_of_Z classes))
      [x_complex]
  else
    call (Dense classes output_activation (lit "fc" ++ str_of_Z classes))
      [x_complex].

(** [ResNet2D.__init__] *)
Definition ResNet2D (inputs : tensor) (num_blocks : list Z)
    (block_func : block_builder) (activation : str) (n_filters : Z)
    (pooling_func : list str) (include_top : bool) (classes : Z)
    (numerical_names : option (list bool)) (output_activation : option str)
    : M Model :=
  let numerical_names :=
    match numerical_names with
    | None => repeat true (List.length num_blocks)
    | Some l => l
    end in
  x_complex <- stem inputs activation n_filters pooling_func ;;
  r <- for_stage_id block_func numerical_names activation
         (enumerate num_blocks) n_filters x_complex [] ;;
  let (x_complex, outputs) := r in
  if include_top then
    x <- top pooling_func classes output_activation x_complex ;;
    ret (KerasModel inputs (inl x))
  else
    ret (KerasModel inputs (inr outputs)).

(** *** Depth presets *)

(** The default builders of the presets, [basic_2d] and [bottleneck_2d] of
    [resnet_blocks_2d.py], are parameters of the development. *)
Variables basic_2d bottleneck_2d : block_builder.

(** In the presets [num_blocks] and [numerical_names] default to [None];
    for [block_func], [None] stands for an omitted argument. *)
Definition ResNet2D18 (inputs : tensor) (num_blocks : option (list Z))
    (block_func : option block_builder) (conv_activation : str) (n_filters : Z)
    (pooling_func : list str) (include_top : bool) (classes : Z)
    (numerical_names : option (list bool)) (output_activation : option str)
    : M Model :=
  let block_func := match block_func with None => basic_2d | Some f => f end in
  let num_blocks :=
    match num_blocks with None => [2; 2; 2; 2] | Some l => l end in
  ResNet2D inputs num_blocks block_func conv_activation n_filters pooling_func
    include_top classes numerical_names output_activation.

Definition ResNet2D34 (inputs : tensor) (num_blocks : option (list Z))
    (block_func : option block_builder) (conv_activation : str) (n_filters : Z)
    (pooling_func : list str) (include_top : bool) (classes : Z)
    (numerical_names : option (list bool)) (output_activation : option str)
    : M Model :=
  let block_func := match block_func with None => basic_2d | Some f => f end in
  let num_blocks :=
    match num_blocks with None => [3; 4; 6; 3] | Some l => l end in
  ResNet2D inputs num_blocks block_func conv_activation n_filters pooling_func
    include_top classes numerical_names output_activation.

Definition ResNet2D50 (inputs : tensor) (num_blocks : option (list Z))
    (block_func : option block_builder) (conv_activation : str) (n_filters : Z)
    (pooling_func : list str) (include_top : bool) (classes : Z)
    (numerical_names : option (list bool)) (output_activation : option str)
    : M Model :=
  let block_func := match block_func with None => bottleneck_2d | Some f => f end in
  let num_blocks :=
    match num_blocks with None => [3; 4; 6; 3] | Some l => l end in
  let numerical_names := Some [false; false; false; false] in
  ResNet2D inputs num_blocks block_func conv_activation n_filters pooling_func
    include_top classes numerical_names output_activation.

Definition ResNet2D101 (inputs : tensor) (num_blocks : option (list Z))
    (block_func : option block_builder) (conv_activation : str) (n_filters : Z)
    (pooling_func : list str) (include_top : bool) (classes : Z)
    (numerical_names : option (list bool)) (output_activation : option str)
    : M Model :=
  let block_func := match block_func with None => bottleneck_2d | Some f => f end in
  let num_blocks :=
    match num_blocks with None => [3; 4; 23; 3] | Some l => l end in
  let numerical_names := Some [false; true; true; false] in
  ResNet2D inputs num_blocks block_func conv_activation n_filters pooling_func
    include_top classes numerical_names output_activation.

Definition ResNet2D152 (inputs : tensor) (num_blocks : option (list Z))
    (block_func : option block_builder) (conv_activation : str) (n_filters : Z)
    (pooling_func : list str) (include_top : bool) (classes : Z)
    (numerical_names : option (list bool)) (output_activation : option str)
    : M Model :=
  let block_func := match block_func with None => bottleneck_2d | Some f => f end in
  let num_blocks :=
    match num_blocks with None => [3; 8; 36; 3] | Some l => l end in
  let numerical_names := Some [false; true; true; false] in
  ResNet2D inputs num_blocks block_func conv_activation n_filters pooling_func
    include_top classes numerical_names output_activation.

Definition ResNet2D200 (inputs : tensor) (num_blocks : option (list Z))
    (block_func : option block_builder) (conv_activation : str) (n_filters : Z)
    (pooling_func : list str) (include_top : bool) (classes : Z)
    (numerical_names : option (list bool)) (output_activation : option str)
    : M Model :=
  let block_func := match block_func with None => bottleneck_2d | Some f => f end in
  let num_blocks :=
    match num_blocks with None => [3; 24; 36; 3] | Some l => l end in
  let numerical_names := Some [false; true; true; false] in
  ResNet2D inputs num_blocks block_func conv_activation n_filters pooling_func
    include_top classes numerical_names output_activation.

End Models.

(** * Vocabulary of the properties *)

(** ** Shortcuts *)

(** The shortcut of a finished block: the second summand of the [add] whose
    result is activated last. *)
Definition shortcut_of (t : tensor) : option tensor :=
  match t with
  | Out (Activation _ _) [Out (Add _) [_; shortcut]] => Some shortcut
  | _ => None
  end.

(** [t] is [inputs] projected: a 1x1 convolution with the given stride and no
    bias, then a normalization. *)
Definition is_projection (inputs : tensor) (stride : size_arg) (t : tensor) : Prop :=
  exists filters name1 axis name2,
    t = Out (ComplexBatchNormalization axis name2)
          [Out (ComplexConv3D filters (Tuple [1; 1]) (Some stride) false false name1)
             [inputs]].

(** What is asked of a finished block [f] built for [stage], [block] and
    [stride]: applied to any input it returns a tensor whose shortcut is a
    projection of the input exactly when [block == 0], and is the input itself
    otherwise. *)
Definition shortcut_spec (stage block : Z) (stride : option size_arg)
    (f : tensor -> M tensor) : Prop :=
  forall inputs, exists outputs shortcut,
    fst (f inputs) = Ok outputs /\
    shortcut_of outputs = Some shortcut /\
    (is_projection inputs (resolve_stride stride stage block) shortcut
     <-> block = 0) /\
    (block <> 0 -> shortcut = inputs).

(** ** Block characters *)

Definition lowercase_letters : str := lit "abcdefghijklmnopqrstuvwxyz".

(** The [k]-th lowercase letter, counting from 1; there are 26 of them. *)
Definition nth_lowercase (k : Z) : option N :=
  if k <? 1 then None else nth_error lowercase_letters (Z.to_nat (k - 1)).

(** The naming rule for a block index [b >= 1] as the specification words it. *)
Definition block_char_claim (b : Z) : Prop :=
  (exists c, nth_lowercase (b + 1) = Some c /\ block_char b false = ret [c]) /\
  block_char b true = ret (lit "b" ++ str_of_Z b).

(** ** Parts of the assembler *)

(** The stem without a pooling layer: convolution, normalization, activation. *)
Definition unpooled_stem (image_data_format : str) (inputs : tensor)
    (activation : str) (n_filters : Z) : tensor :=
  Out (Activation activation (lit "conv1_" ++ activation))
    [Out (ComplexBatchNormalization (bn_axis image_data_format) (lit "bn_conv1"))
       [Out (ComplexConv2D n_filters (Int 7) (Tuple [2; 2]) (lit "same")
               false false (lit "conv1")) [inputs]]].

Definition is_pooling (l : layer) : bool :=
  match l with
  | ComplexMaxPooling2D _ _ _ _ | ComplexAveragePooling2D _ _ _ _
  | GlobalAveragePooling2D _ | SpectralPooling2D _ => true
  | _ => false
  end.

(** Lines 72-101 of [ResNet2D.__init__]: the stem and the residual stages. *)
Definition features (image_data_format : str) (inputs : tensor)
    (num_blocks : list Z) (block_func : block_builder) (activation : str)
    (n_filters : Z) (pooling_func : list str)
    (numerical_names : option (list bool)) : M (tensor * list tensor) :=
  let numerical_names :=
    match numerical_names with
    | None => repeat true (List.length num_blocks)
    | Some l => l
    end in
  x_complex <- stem image_data_format inputs activation n_filters pooling_func ;;
  for_stage_id block_func numerical_names activation
    (enumerate num_blocks) n_filters x_complex [].

(** Lines 87-129: the assembler after the stem, from the tensor [x_complex]
    that the stem produced. *)
Definition after_stem (K_ndim : tensor -> Z) (inputs : tensor)
    (num_blocks : list Z) (block_func : block_builder) (activation : str)
    (n_filters : Z) (pooling_func : list str) (include_top : bool) (classes : Z)
    (numerical_names : option (list bool)) (output_activation : option str)
    (x_complex : tensor) : M Model :=
  let numerical_names :=
    match numerical_names with
    | None => repeat true (List.length num_blocks)
    | Some l => l
    end in
  r <- for_stage_id block_func numerical_names activation
         (enumerate num_blocks) n_filters x_complex [] ;;
  let (x_complex, outputs) := r in
  if include_top then
    x <- top K_ndim pooling_func classes output_activation x_complex ;;
    ret (KerasModel inputs (inl x))
  else
    ret (KerasModel inputs (inr outputs)).

(** ** Layer names *)

Definition is_digit (c : N) : bool := ((48 <=? c) && (c <=? 57))%N.

(** A string that does not go on with a digit: empty, or its first character
    is not one. *)
Definition no_digit_head (s : str) : Prop :=
  match s with
  | [] => True
  | c :: _ => is_digit c = false
  end.

(** The layer roles that open a block layer name. *)
Definition roles : list str := [lit "padding"; lit "res"; lit "bn"].

(** The per-role suffixes that close a block layer name. *)
Definition suffixes (activation : str) : list str :=
  [lit "_branch2a"; lit "_branch2b"; lit "_branch2c"; lit "_branch1"; [];
   lit "_branch2a_" ++ activation; lit "_branch2b_" ++ activation;
   lit "_" ++ activation].

(** [name] is a block layer name of the given stage and block: a role, the
    decimal of [stage + 2], the block character, a suffix. *)
Definition block_layer_name (activation : str) (stage block : Z)
    (numerical_name : bool) (name : str) : Prop :=
  exists role c suffix,
    In role roles /\
    block_char block numerical_name = ret c /\
    In suffix (suffixes activation) /\
    name = role ++ stage_char stage ++ c ++ suffix.

(** The names of the stem and of the head. *)
Definition stem_names (activation : str) : list str :=
  [lit "conv1"; lit "bn_conv1"; lit "conv1_" ++ activation; lit "pool1"].

Definition top_names (classes : Z) : list str :=
  [lit "pool5"; lit "fc" ++ str_of_Z classes].

(** The names [basic_3d] gives, in creation order, from the stage and block
    characters; [first] tells whether the block has a projection shortcut. *)
Definition basic_3d_names (sc c activation : str) (first : bool) : list str :=
  [lit "padding" ++ sc ++ c ++ lit "_branch2a";
   lit "res" ++ sc ++ c ++ lit "_branch2a";
   lit "bn" ++ sc ++ c ++ lit "_branch2a";
   lit "res" ++ sc ++ c ++ lit "_branch2a_" ++ activation;
   lit "padding" ++ sc ++ c ++ lit "_branch2b";
   lit "res" ++ sc ++ c ++ lit "_branch2b";
   lit "bn" ++ sc ++ c ++ lit "_branch2b"]
  ++ (if first
      then [lit "res" ++ sc ++ c ++ lit "_branch1";
            lit "bn" ++ sc ++ c ++ lit "_branch1"]
      else [])
  ++ [lit "res" ++ sc ++ c;
      lit "res" ++ sc ++ c ++ lit "_" ++ activation].

(** The same for [bottleneck_3d]. *)
Definition bottleneck_3d_names (sc c activation : str) (first : bool) : list str :=
  [lit "res" ++ sc ++ c ++ lit "_branch2a";
   lit "bn" ++ sc ++ c ++ lit "_branch2a";
   lit "res" ++ sc ++ c ++ lit "_branch2a_" ++ activation;
   lit "padding" ++ sc ++ c ++ lit "_branch2b";
   lit "res" ++ sc ++ c ++ lit "_branch2b";
   lit "bn" ++ sc ++ c ++ lit "_branch2b";
   lit "res" ++ sc ++ c ++ lit "_branch2b_" ++ activation;
   lit "res" ++ sc ++ c ++ lit "_branch2c";
   lit "bn" ++ sc ++ c ++ lit "_branch2c"]
  ++ (if first
      then [lit "res" ++ sc ++ c ++ lit "_branch1";
            lit "bn" ++ sc ++ c ++ lit "_branch1"]
      else [])
  ++ [lit "res" ++ sc ++ c;
      lit "res" ++ sc ++ c ++ lit "_" ++ activation].

(** The names of a construction are pairwise distinct and all satisfy [P]. *)
Definition names_in {A} (P : str -> Prop) (m : M A) : Prop :=
  NoDup (names m) /\ Forall P (names m).

Definition is_ok {A} (m : M A) : bool :=
  match fst m with
  | Ok _ => true
  | Raise _ => false
  end.

(** Two constructions give the same names and both succeed or both fail. *)
Definition same_names {A B} (m : M A) (m' : M B) : Prop :=
  names m = names m' /\ is_ok m = is_ok m'.

(** A block builder names its layers well for an activation: whether it
    returns a block, and under which names the block creates its layers,
    depends on stage, block and naming flag only; the names of a block are
    pairwise distinct block layer names of that stage and block; the builder
    itself creates no layer. *)
Definition well_named (block_func : block_builder) (activation : str) : Prop :=
  forall stage block numerical_name,
    exists plan : option (list str),
      (forall l, plan = Some l ->
         NoDup l /\
         Forall (block_layer_name activation stage block numerical_name) l) /\
      forall filters,
        match block_func filters stage block numerical_name activation with
        | (Ok f, w) =>
            w = [] /\
            exists l, plan = Some l /\
              forall x, names (f x) = l /\ is_ok (f x) = true
        | (Raise _, w) => w = [] /\ plan = None
        end.

(** The naming flag of a stage, [numerical_names[stage_id]]. *)
Definition stage_flag (numerical_names : list bool) (stage_id : Z) : bool :=
  nth (Z.to_nat stage_id) numerical_names false.

(** Lines 91-97: one turn of the inner loop. *)
Definition block_call (block_func : block_builder) (n_filters stage_id : Z)
    (numerical_names : list bool) (activation : str) (block_id : Z)
    (x_complex : tensor) : M tensor :=
  numerical_name <-
    (if 0 <? block_id then getitem numerical_names stage_id else ret false) ;;
  f <- block_func n_filters stage_id block_id numerical_name activation ;;
  f x_complex.

(** Activation names that would repeat a convolution name of the block. *)
Definition basic_branch_tags : list str :=
  [lit "branch2a"; lit "branch2b"; lit "branch1"].

Definition bottleneck_branch_tags : list str :=
  [lit "branch2a"; lit "branch2b"; lit "branch2c"; lit "branch1"].

(** ** Filter counts *)

(** A block builder that first checks the filter count it is given against
    [base * 2 ** stage], and fails the check otherwise. *)
Definition checking_filters (base : Z) (block_func : block_builder) : block_builder :=
  fun filters stage block numerical_name activation =>
    assert (filters =? base * 2 ^ stage) ;;;
    block_func filters stage block numerical_name activation.

(** A builder that only records the filter count and the stage it is given. *)
Definition recording_block : block_builder :=
  fun filters stage block numerical_name activation =>
    ret (fun x => call (ComplexDense filters activation (str_of_Z stage)) [x]).

(** ** Names by kind of layer *)

Definition is_activation (l : layer) : bool :=
  match l with
  | Activation _ _ => true
  | _ => false
  end.

Definition is_not_activation (l : layer) : bool := negb (is_activation l).

(** The names of the layers of [w] that [keep] selects. *)
Definition names_where (keep : layer -> bool) (w : list layer) : list str :=
  names_of (filter keep w).

(** The selected layers of a construction have pairwise distinct names, all
    satisfying [P]. *)
Definition names_in_where {A} (keep : layer -> bool) (P : str -> Prop)
    (m : M A) : Prop :=
  NoDup (names_where keep (created m)) /\
  Forall P (names_where keep (created m)).

(** A block builder names the selected layers of its blocks as block layer
    names of the stage and block it is called for, pairwise distinct, and
    creates no layer itself. *)
Definition well_named_where (keep : layer -> bool) (block_func : block_builder)
    (activation : str) : Prop :=
  forall filters stage block numerical_name,
    match block_func filters stage block numerical_name activation with
    | (Ok f, w) =>
        w = [] /\
        forall x,
          names_in_where keep
            (block_layer_name activation stage block numerical_name) (f x)
    | (Raise _, w) => w = []
    end.

(** Whether a block builder returns a block, and under which names the
    block creates its layers, depends on stage, block and naming flag only,
    not on the filter count nor on the tensor the block is applied to; the
    builder itself creates no layer, and its blocks raise nothing. *)
Definition names_fixed (block_func : block_builder) (activation : str) : Prop :=
  forall stage block numerical_name,
    exists plan : option (list str),
      forall filters,
        match block_func filters stage block numerical_name activation with
        | (Ok f, w) =>
            w = [] /\
            exists l, plan = Some l /\
              forall x, names (f x) = l /\ is_ok (f x) = true
        | (Raise _, w) => w = [] /\ plan = None
        end.

(** [name] is derived from some stage index and block index, as a block
    layer name is. *)
Definition stage_derived_name (activation : str) (name : str) : Prop :=
  exists stage block numerical_name,
    0 <= stage /\ 0 <= block /\
    block_layer_name activation stage block numerical_name name.

(** [name] is a block layer name of a stage and a block the configuration
    has: the stage is an index of [num_blocks], the block is below the block
    count of that stage, and the naming flag is the one of that stage. *)
Definition configured_block_name (activation : str) (num_blocks : list Z)
    (flags : list bool) (name : str) : Prop :=
  exists stage iterations block,
    In (stage, iterations) (enumerate num_blocks) /\
    In block (range iterations) /\
    block_layer_name activation stage block (stage_flag flags stage) name.

(** The names a configuration can give: the fixed names of the stem and of
    the head, and the block layer names of its stages and blocks. *)
Definition configured_name (activation : str) (classes : Z)
    (num_blocks : list Z) (flags : list bool) (name : str) : Prop :=
  In name (stem_names activation) \/
  In name (top_names classes) \/
  configured_block_name activation num_blocks flags name.

(** ** Further vocabulary *)

(** The 3D convolutions among the layers created, in creation order, each
    with its filter count and its [strides] argument. *)
Definition conv3d_layers (w : list layer) : list (Z * option size_arg) :=
  flat_map (fun l => match l with
                     | ComplexConv3D filters _ strides _ _ _ => [(filters, strides)]
                     | _ => []
                     end) w.

(** [subtensor x t]: the tensor [t] is [x] or is computed from [x]. *)
Inductive subtensor (x : tensor) : tensor -> Prop :=
| sub_here : subtensor x x
| sub_out (l : layer) (ts : list tensor) (t : tensor) :
    In t ts -> subtensor x t -> subtensor x (Out l ts).

(** A block builder whose blocks compute their output from their input. *)
Definition connecting (block_func : block_builder) : Prop :=
  forall filters stage block numerical_name activation f x y,
    fst (block_func filters stage block numerical_name activation) = Ok f ->
    fst (f x) = Ok y ->
    subtensor x y.

(** The tensor the dense layer of the head is applied to when no pooling
    layer is created: the flattened input if it has more than two axes. *)
Definition flattened (K_ndim : tensor -> Z) (x : tensor) : tensor :=
  if 2 <? K_ndim x then Out Flatten [x] else x.

(** The dense layer of the head. *)
Definition fc_layer (classes : Z) (output_activation : option str) : layer :=
  let act := match output_activation with None => lit "softmax" | Some a => a end in
  if startswith act (lit "complex_")
  then ComplexDense classes (skipn 8 act) (lit "fc" ++ str_of_Z classes)
  else Dense classes act (lit "fc" ++ str_of_Z classes).

(** * Properties *)

(** ** The construction monad *)

Lemma bind_ret_l {A B} (a : A) (f : A -> M B) : bind (ret a) f = f a.
Proof. unfold bind, ret. destruct (f a); reflexivity. Qed.

Lemma bind_raise {A B} (e : error) (f : A -> M B) : bind (raise e) f = raise e.
Proof. reflexivity. Qed.

Lemma bind_assoc {A B C} (m : M A) (f : A -> M B) (g : B -> M C) :
  bind (bind m f) g = bind m (fun a => bind (f a) g).
Proof.
  destruct m as [[a | e] w]; cbn; [| reflexivity].
  destruct (f a) as [[b | e] w1]; cbn; [| reflexivity].
  destruct (g b) as [r w2]. now rewrite app_assoc.
Qed.

Lemma created_bind {A B} (m : M A) (f : A -> M B) :
  created (bind m f) =
  created m ++ match fst m with Ok a => created (f a) | Raise _ => [] end.
Proof.
  destruct m as [[a | e] w]; cbn.
  - destruct (f a); reflexivity.
  - now rewrite app_nil_r.
Qed.

Lemma names_of_app (w1 w2 : list layer) :
  names_of (w1 ++ w2) = names_of w1 ++ names_of w2.
Proof. unfold names_of. apply flat_map_app. Qed.

Lemma names_bind {A B} (m : M A) (f : A -> M B) :
  names (bind m f) =
  names m ++ match fst m with Ok a => names (f a) | Raise _ => [] end.
Proof.
  unfold names. rewrite created_bind, names_of_app.
  destruct (fst m); reflexivity.
Qed.

(** ** Strings *)

Lemma str_eqb_eq (a b : str) : str_eqb a b = true <-> a = b.
Proof.
  revert b. induction a as [| x a IH]; intros [| y b]; cbn; try easy.
  rewrite andb_true_iff, N.eqb_eq, IH. split.
  - now intros [-> ->].
  - now intros [= -> ->].
Qed.

Lemma str_eqb_neq (a b : str) : a <> b -> str_eqb a b = false.
Proof.
  intros H. destruct (str_eqb a b) eqn:E; [| reflexivity].
  now apply str_eqb_eq in E.
Qed.

(** ** Code points *)

Lemma chr_code_point (i : Z) : 0 <= i < 1114112 -> chr i = ret [Z.to_N i].
Proof.
  intros H. unfold chr.
  replace ((i <? -2147483648) || (2147483647 <? i)) with false.
  - replace ((0 <=? i) && (i <? 1114112)) with true; [reflexivity |].
    symmetry. apply andb_true_iff.
    split; [apply Z.leb_le | apply Z.ltb_lt]; lia.
  - symmetry. apply orb_false_iff.
    split; apply Z.ltb_ge; lia.
Qed.

Lemma chr_cases (i : Z) :
  (0 <= i < 1114112 /\ chr i = ret [Z.to_N i]) \/ (exists e, chr i = raise e).
Proof.
  unfold chr.
  destruct ((i <? -2147483648) || (2147483647 <? i)); [right; eauto |].
  destruct (Z.leb_spec 0 i), (Z.ltb_spec i 1114112); cbn [andb];
    [left; split; [lia | reflexivity] | right; eauto ..].
Qed.

(** ** Stride resolution *)

(** C2.  For non-negative stage and block indices and [stride=None], the
    resolved stride is 2 exactly when the block is the first of a later stage
    ([block == 0] and [stage > 0]) and 1 otherwise; a stride given explicitly
    is returned unchanged. *)
Theorem resolve_stride_spec (stage block : Z) :
  0 <= stage -> 0 <= block ->
  (resolve_stride None stage block = Int 2 <-> block = 0 /\ 0 < stage) /\
  (resolve_stride None stage block = Int 1 <-> ~ (block = 0 /\ 0 < stage)) /\
  (forall s, resolve_stride (Some s) stage block = s).
Proof.
  intros Hs Hb. unfold resolve_stride.
  destruct (Z.eqb_spec block 0) as [-> | Hb0];
    destruct (Z.eqb_spec stage 0) as [-> | Hs0]; cbn;
    repeat split; try discriminate; try reflexivity; try lia;
    intros; try lia; exfalso; lia.
Qed.

Lemma resolve_stride_spec_witness :
  (resolve_stride None 1 0 = Int 2 <-> 0 = 0 /\ 0 < 1) /\
  (resolve_stride None 1 0 = Int 1 <-> ~ (0 = 0 /\ 0 < 1)) /\
  (forall s, resolve_stride (Some s) 1 0 = s).
Proof. apply (resolve_stride_spec 1 0); lia. Defined.

(** Both builders hand the resolved stride to their first convolution. *)
Lemma builders_first_conv_stride (idf : str) (filters stage block : Z)
    (kernel_size : size_arg) (numerical_name : bool) (stride : option size_arg)
    (activation : str) (f : tensor -> M tensor) (inputs : tensor) :
  (fst (basic_3d idf filters stage block kernel_size numerical_name stride activation)
     = Ok f ->
   exists name, In (ComplexConv3D filters kernel_size
                      (Some (resolve_stride stride stage block)) false false name)
                   (created (f inputs))) /\
  (fst (bottleneck_3d idf filters stage block kernel_size numerical_name stride activation)
     = Ok f ->
   exists name, In (ComplexConv3D filters (Int 1)
                      (Some (resolve_stride stride stage block)) false false name)
                   (created (f inputs))).
Proof.
  unfold basic_3d, bottleneck_3d.
  split; destruct (block_char block numerical_name) as [[bc | e] w]; cbn;
    try discriminate; intros [= <-]; eexists;
    destruct (block =? 0); cbn; eauto 6.
Qed.

(** ** The shortcut path *)

Lemma tensor_not_own_projection (inputs : tensor) (stride : size_arg) :
  ~ is_projection inputs stride inputs.
Proof.
  intros (filters & n1 & axis & n2 & H).
  apply (f_equal tsize) in H. cbn in H. lia.
Qed.

(** When the builders return a block at all: [chr] must accept the letter. *)
Lemma block_char_ok (block : Z) (numerical_name : bool) :
  -97 <= block < 1114015 ->
  exists c, block_char block numerical_name = ret c.
Proof.
  intros H. unfold block_char.
  destruct ((0 <? block) && numerical_name); [eauto |].
  rewrite chr_code_point by (unfold ord_a; lia). eauto.
Qed.

Lemma builders_return (idf : str) (filters stage block : Z)
    (kernel_size : size_arg) (numerical_name : bool) (stride : option size_arg)
    (activation : str) :
  -97 <= block < 1114015 ->
  (exists f, basic_3d idf filters stage block kernel_size numerical_name stride
               activation = ret f) /\
  (exists f, bottleneck_3d idf filters stage block kernel_size numerical_name
               stride activation = ret f).
Proof.
  intros H. destruct (block_char_ok block numerical_name H) as [c Hc].
  unfold basic_3d, bottleneck_3d. rewrite Hc, !bind_ret_l. eauto.
Qed.

Lemma block_char_created (block : Z) (numerical_name : bool) :
  created (block_char block numerical_name) = [].
Proof.
  unfold block_char.
  destruct ((0 <? block) && numerical_name); [reflexivity |].
  destruct (chr_cases (ord_a + block)) as [[_ ->] | [e ->]]; reflexivity.
Qed.

Section Shortcut.

Variable image_data_format : str.
Variables (filters stage block : Z) (kernel_size : size_arg).
Variables (numerical_name : bool) (stride : option size_arg) (activation : str).

Lemma basic_3d_shortcut (f : tensor -> M tensor) :
  fst (basic_3d image_data_format filters stage block kernel_size
         numerical_name stride activation) = Ok f ->
  shortcut_spec stage block stride f.
Proof.
  unfold basic_3d.
  destruct (block_char block numerical_name) as [[bc | e] w]; cbn;
    try discriminate.
  intros [= <-] inputs.
  destruct (Z.eqb_spec block 0) as [E | E]; cbn.
  - eexists _, _. repeat split; try reflexivity; try tauto.
    intros _. now eexists _, _, _, _.
  - eexists _, _. repeat split; try reflexivity; try tauto.
    intros H. now apply tensor_not_own_projection in H.
Qed.

Lemma bottleneck_3d_shortcut (f : tensor -> M tensor) :
  fst (bottleneck_3d image_data_format filters stage block kernel_size
         numerical_name stride activation) = Ok f ->
  shortcut_spec stage block stride f.
Proof.
  unfold bottleneck_3d.
  destruct (block_char block numerical_name) as [[bc | e] w]; cbn;
    try discriminate.
  intros [= <-] inputs.
  destruct (Z.eqb_spec block 0) as [E | E]; cbn.
  - eexists _, _. repeat split; try reflexivity; try tauto.
    intros _. now eexists _, _, _, _.
  - eexists _, _. repeat split; try reflexivity; try tauto.
    intros H. now apply tensor_not_own_projection in H.
Qed.

End Shortcut.

(** C3.  For every block that either builder returns, the shortcut summand is
    a projection of the block input (1x1 convolution with the resolved stride,
    then normalization) if and only if the block index is 0; for any other
    block index the shortcut is the block input itself. *)
Theorem shortcut_projection_iff_first_block
    (idf : str) (filters stage block : Z) (kernel_size : size_arg)
    (numerical_name : bool) (stride : option size_arg) (activation : str)
    (f : tensor -> M tensor) :
  fst (basic_3d idf filters stage block kernel_size numerical_name stride activation)
    = Ok f \/
  fst (bottleneck_3d idf filters stage block kernel_size numerical_name stride activation)
    = Ok f ->
  shortcut_spec stage block stride f.
Proof.
  intros [H | H].
  - eapply basic_3d_shortcut; eassumption.
  - eapply bottleneck_3d_shortcut; eassumption.
Qed.

Lemma shortcut_projection_iff_first_block_witness :
  exists f,
    fst (bottleneck_3d (lit "channels_last") 64 1 2 (Int 3) true None (lit "crelu"))
      = Ok f /\
    shortcut_spec 1 2 None f.
Proof.
  eexists. split; [reflexivity |].
  apply (shortcut_projection_iff_first_block (lit "channels_last") 64 1 2 (Int 3)
           true None (lit "crelu")).
  right. reflexivity.
Defined.

(** ** Block characters *)

Lemma nth_lowercase_letter (b : Z) :
  0 <= b <= 25 -> nth_lowercase (b + 1) = Some (Z.to_N (ord_a + b)).
Proof.
  intros H. unfold nth_lowercase.
  replace (b + 1 <? 1) with false by (symmetry; apply Z.ltb_ge; lia).
  replace (b + 1 - 1) with b by lia.
  assert (Hb : In b (range 26)).
  { unfold range. apply in_map_iff. exists (Z.to_nat b). split; [lia |].
    apply in_seq. lia. }
  revert Hb. clear H. cbn.
  intros Hb. repeat (destruct Hb as [<- | Hb]; [reflexivity |]). destruct Hb.
Qed.

(** C6 fails as stated: block 26 without numerical naming gets the character
    after ['z'], a brace, and there is no 27th lowercase letter. *)
Lemma block_char_claim_fails_at_26 :
  block_char 26 false = ret (lit "{") /\
  ~ In 123%N lowercase_letters /\
  ~ block_char_claim 26.
Proof.
  split; [reflexivity |]. split.
  - cbn. intuition discriminate.
  - intros [(c & H & _) _]. discriminate H.
Qed.

(** C6, amended.  Block index 0 always gets ["a"], whatever the flag.  For a
    block index [b >= 1]: with numerical naming the block character is ["b"]
    followed by the decimal [b]; without it, and for [b <= 25], it is the
    [(b+1)]-th lowercase letter. *)
Theorem block_char_spec (b : Z) :
  1 <= b ->
  (forall numerical_name, block_char 0 numerical_name = ret (lit "a")) /\
  block_char b true = ret (lit "b" ++ str_of_Z b) /\
  (b <= 25 ->
   exists c, nth_lowercase (b + 1) = Some c /\ block_char b false = ret [c]).
Proof.
  intros Hb. split; [| split].
  - now intros [|].
  - unfold block_char.
    now replace (0 <? b) with true by (symmetry; apply Z.ltb_lt; lia).
  - intros Hb'. exists (Z.to_N (ord_a + b)). split.
    + apply nth_lowercase_letter. lia.
    + unfold block_char. rewrite andb_false_r.
      apply chr_code_point. unfold ord_a. lia.
Qed.

Lemma block_char_spec_witness :
  (forall numerical_name, block_char 0 numerical_name = ret (lit "a")) /\
  block_char 3 true = ret (lit "b" ++ str_of_Z 3) /\
  (exists c, nth_lowercase (3 + 1) = Some c /\ block_char 3 false = ret [c]).
Proof.
  destruct (block_char_spec 3) as (H0 & H1 & H2); [lia |].
  split; [exact H0 |]. split; [exact H1 |]. apply H2. lia.
Defined.

(** ** The stem *)

Lemma ResNet2D_after_stem (idf : str) (K_ndim : tensor -> Z) inputs num_blocks
    block_func activation n_filters pooling_func include_top classes
    numerical_names output_activation :
  ResNet2D idf K_ndim inputs num_blocks block_func activation
    n_filters pooling_func include_top classes numerical_names output_activation
  = bind (stem idf inputs activation n_filters pooling_func)
      (after_stem K_ndim inputs num_blocks block_func activation n_filters
         pooling_func include_top classes numerical_names output_activation).
Proof. reflexivity. Qed.

Lemma stem_unrecognized (idf : str) (inputs : tensor) (activation : str)
    (n_filters : Z) (p : str) (pooling_rest : list str) :
  p <> lit "max" -> p <> lit "average" ->
  stem idf inputs activation n_filters (p :: pooling_rest)
  = (Ok (unpooled_stem idf inputs activation n_filters),
     [ComplexConv2D n_filters (Int 7) (Tuple [2; 2]) (lit "same")
        false false (lit "conv1");
      ComplexBatchNormalization (bn_axis idf) (lit "bn_conv1");
      Activation activation (lit "conv1_" ++ activation)]).
Proof.
  intros Hmax Havg.
  pose proof (str_eqb_neq _ _ Hmax) as E1.
  pose proof (str_eqb_neq _ _ Havg) as E2.
  unfold stem, layer_activation, call, getitem. cbn in *.
  rewrite E1, E2. reflexivity.
Qed.

(** C7.  When the first element of [pooling_func] is neither "max" nor
    "average", the stem raises nothing and creates no pooling layer: it ends
    with the activation, and the rest of the assembly starts from that
    unpooled tensor. *)
Theorem unrecognized_stem_pooling_is_skipped
    (idf : str) (K_ndim : tensor -> Z)
    (inputs : tensor) (num_blocks : list Z) (block_func : block_builder)
    (activation : str) (n_filters : Z) (p : str) (pooling_rest : list str)
    (include_top : bool) (classes : Z) (numerical_names : option (list bool))
    (output_activation : option str) :
  p <> lit "max" -> p <> lit "average" ->
  let x := unpooled_stem idf inputs activation n_filters in
  fst (stem idf inputs activation n_filters (p :: pooling_rest)) = Ok x /\
  forallb (fun l => negb (is_pooling l))
    (created (stem idf inputs activation n_filters (p :: pooling_rest))) = true /\
  ResNet2D idf K_ndim inputs num_blocks block_func activation
    n_filters (p :: pooling_rest) include_top classes numerical_names
    output_activation
  = bind (stem idf inputs activation n_filters (p :: pooling_rest))
      (fun _ => after_stem K_ndim inputs num_blocks block_func activation n_filters
                  (p :: pooling_rest) include_top classes numerical_names
                  output_activation x).
Proof.
  intros Hmax Havg x.
  rewrite ResNet2D_after_stem, (stem_unrecognized idf _ _ _ _ _ Hmax Havg).
  repeat split.
Qed.

Lemma unrecognized_stem_pooling_is_skipped_witness :
  fst (stem (lit "channels_last") (Placeholder 0) (lit "crelu") 64
         [lit "spectral"; lit "global_average"])
    = Ok (unpooled_stem (lit "channels_last") (Placeholder 0) (lit "crelu") 64) /\
  forallb (fun l => negb (is_pooling l))
    (created (stem (lit "channels_last") (Placeholder 0) (lit "crelu") 64
                [lit "spectral"; lit "global_average"])) = true.
Proof.
  destruct (unrecognized_stem_pooling_is_skipped (lit "channels_last")
              (fun _ => 4) (Placeholder 0) [2; 2] (fun _ _ _ _ _ => raise ValueError)
              (lit "crelu") 64 (lit "spectral") [lit "global_average"] true 3
              None None) as (H1 & H2 & _); [discriminate | discriminate |].
  split; [exact H1 | exact H2].
Defined.

(** ** Filter counts *)

Section Filters.

Variable image_data_format : str.
Variable K_ndim : tensor -> Z.
Variable base : Z.
Variable block_func : block_builder.
Variables (numerical_names : list bool) (activation : str).

Lemma for_block_id_checking (k : nat) (block_ids : list Z) (x : tensor) :
  for_block_id (checking_filters base block_func) (base * 2 ^ Z.of_nat k)
    (Z.of_nat k) numerical_names activation block_ids x
  = for_block_id block_func (base * 2 ^ Z.of_nat k)
      (Z.of_nat k) numerical_names activation block_ids x.
Proof.
  revert x. induction block_ids as [| b ids IH]; intros x; [reflexivity |].
  cbn [for_block_id].
  destruct (if 0 <? b then getitem numerical_names (Z.of_nat k) else ret false)
    as [[nn | e] w]; [| reflexivity].
  cbn [bind]. unfold checking_filters at 1.
  rewrite Z.eqb_refl. cbn [assert]. rewrite bind_ret_l.
  destruct (block_func _ _ _ _ _) as [[f | e] w1]; [| reflexivity].
  cbn [bind]. destruct (f x) as [[x' | e] w2]; [| reflexivity].
  cbn [bind]. now rewrite IH.
Qed.

Lemma for_stage_id_checking (l : list Z) :
  forall (k : nat) (x : tensor) (outputs : list tensor),
    for_stage_id (checking_filters base block_func) numerical_names activation
      (combine (map Z.of_nat (seq k (List.length l))) l)
      (base * 2 ^ Z.of_nat k) x outputs
    = for_stage_id block_func numerical_names activation
        (combine (map Z.of_nat (seq k (List.length l))) l)
        (base * 2 ^ Z.of_nat k) x outputs.
Proof.
  induction l as [| n l IH]; intros k x outputs; [reflexivity |].
  cbn [List.length seq map combine for_stage_id].
  rewrite for_block_id_checking.
  destruct (for_block_id _ _ _ _ _ _ _) as [[x' | e] w]; [| reflexivity].
  cbn [bind].
  replace (base * 2 ^ Z.of_nat k * 2) with (base * 2 ^ Z.of_nat (S k)).
  - now rewrite IH.
  - rewrite Nat2Z.inj_succ, Z.pow_succ_r by lia. ring.
Qed.

End Filters.

(** C4.  Every call the assembler makes to its block builder in stage [s]
    passes [n_filters * 2 ** s]: for any block builder, wrapping it in a check
    of exactly that equation changes nothing about the construction, neither
    its result nor the layers created. *)
Theorem filters_double_per_stage
    (idf : str) (K_ndim : tensor -> Z) (inputs : tensor) (num_blocks : list Z)
    (block_func : block_builder) (activation : str) (n_filters : Z)
    (pooling_func : list str) (include_top : bool) (classes : Z)
    (numerical_names : option (list bool)) (output_activation : option str) :
  ResNet2D idf K_ndim inputs num_blocks (checking_filters n_filters block_func)
    activation n_filters pooling_func include_top classes numerical_names
    output_activation
  = ResNet2D idf K_ndim inputs num_blocks block_func
      activation n_filters pooling_func include_top classes numerical_names
      output_activation.
Proof.
  unfold ResNet2D, enumerate.
  destruct (stem idf inputs activation n_filters pooling_func) as [[x | e] w];
    [| reflexivity].
  cbn [bind].
  pose proof (for_stage_id_checking n_filters block_func
                (match numerical_names with
                 | Some l => l
                 | None => repeat true (List.length num_blocks)
                 end) activation num_blocks 0 x []) as H.
  change (Z.of_nat 0) with 0 in H. rewrite Z.pow_0_r, Z.mul_1_r in H.
  now rewrite H.
Qed.

(** The depth-18 block counts with 64 base filters: eight blocks, at filter
    counts 64, 128, 256 and 512. *)
Example filters_of_depth_18 :
  created (for_stage_id recording_block [true; true; true; true] []
             (enumerate [2; 2; 2; 2]) 64 (Placeholder 0) [])
  = [ComplexDense 64 [] (lit "0"); ComplexDense 64 [] (lit "0");
     ComplexDense 128 [] (lit "1"); ComplexDense 128 [] (lit "1");
     ComplexDense 256 [] (lit "2"); ComplexDense 256 [] (lit "2");
     ComplexDense 512 [] (lit "3"); ComplexDense 512 [] (lit "3")].
Proof. reflexivity. Qed.

(** ** The precondition on the class count *)

Lemma ResNet2D_features (idf : str) (K_ndim : tensor -> Z) inputs num_blocks
    block_func activation n_filters pooling_func include_top classes
    numerical_names output_activation :
  ResNet2D idf K_ndim inputs num_blocks block_func activation
    n_filters pooling_func include_top classes numerical_names output_activation
  = bind (features idf inputs num_blocks block_func activation n_filters
            pooling_func numerical_names)
      (fun r =>
         let (x_complex, outputs) := r in
         if include_top then
           x <- top K_ndim pooling_func classes output_activation x_complex ;;
           ret (KerasModel inputs (inl x))
         else ret (KerasModel inputs (inr outputs))).
Proof. unfold ResNet2D, features. now rewrite bind_assoc. Qed.

Lemma stem_created_first (idf : str) inputs activation n_filters pooling_func :
  exists rest,
    created (stem idf inputs activation n_filters pooling_func)
    = ComplexConv2D n_filters (Int 7) (Tuple [2; 2]) (lit "same") false false
        (lit "conv1") :: rest.
Proof.
  unfold stem. rewrite created_bind. cbn [call created snd fst app]. eauto.
Qed.

(** C5 fails as stated: with a classification head and [classes = 0] the
    depth-18 block counts do end in the assertion error, but 84 layers (the
    stem and all eight blocks) have been created by then. *)
Lemma zero_classes_fails_after_layers_created :
  let m := ResNet2D (lit "channels_last") (fun _ => 4) (Placeholder 0)
             [2; 2; 2; 2] (as_block_func (basic_3d (lit "channels_last")))
             (lit "crelu") 64 [lit "max"; lit "global_average"] true 0 None None in
  fst m = Raise AssertionError /\
  List.length (created m) = 84%nat /\
  created m <> [].
Proof. cbv zeta. split; [| split]; [vm_compute; reflexivity .. | discriminate]. Qed.

(** C5, amended.  With a classification head and [classes = 0], whenever the
    stem and the residual stages build without error, construction fails with
    the assertion error after exactly their layers have been created, the
    first of which is the stem convolution [conv1]; no layer of the head
    (pooling, flatten, dense) is created. *)
Theorem zero_classes_fails_after_features
    (idf : str) (K_ndim : tensor -> Z) (inputs : tensor) (num_blocks : list Z)
    (block_func : block_builder) (activation : str) (n_filters : Z)
    (pooling_func : list str) (numerical_names : option (list bool))
    (output_activation : option str) (x : tensor) (outputs : list tensor) :
  fst (features idf inputs num_blocks block_func activation n_filters
         pooling_func numerical_names) = Ok (x, outputs) ->
  ResNet2D idf K_ndim inputs num_blocks block_func activation n_filters
    pooling_func true 0 numerical_names output_activation
  = (Raise AssertionError,
     created (features idf inputs num_blocks block_func activation n_filters
                pooling_func numerical_names)) /\
  exists rest,
    created (features idf inputs num_blocks block_func activation n_filters
               pooling_func numerical_names)
    = ComplexConv2D n_filters (Int 7) (Tuple [2; 2]) (lit "same") false false
        (lit "conv1") :: rest.
Proof.
  intros H. split.
  - rewrite ResNet2D_features.
    destruct (features _ _ _ _ _ _ _ _) as [[[x' outs] | e] w];
      cbn in H; [| discriminate].
    cbn. now rewrite app_nil_r.
  - unfold features. rewrite created_bind.
    destruct (stem_created_first idf inputs activation n_filters pooling_func)
      as [rest ->].
    cbn [app]. eauto.
Qed.

Lemma zero_classes_fails_after_features_witness :
  exists x outputs,
    fst (features (lit "channels_last") (Placeholder 0) [1]
           (as_block_func (bottleneck_3d (lit "channels_last"))) (lit "crelu") 64
           [lit "max"; lit "global_average"] None) = Ok (x, outputs) /\
    fst (ResNet2D (lit "channels_last") (fun _ => 4) (Placeholder 0) [1]
           (as_block_func (bottleneck_3d (lit "channels_last"))) (lit "crelu") 64
           [lit "max"; lit "global_average"] true 0 None None)
    = Raise AssertionError.
Proof.
  eexists _, _. split; [reflexivity |].
  refine (f_equal fst
            (proj1 (zero_classes_fails_after_features (lit "channels_last")
                      (fun _ => 4) (Placeholder 0) [1]
                      (as_block_func (bottleneck_3d (lit "channels_last")))
                      (lit "crelu") 64 [lit "max"; lit "global_average"]
                      None None _ _ _))).
  reflexivity.
Defined.

(** ** The classification head *)

Lemma getitem_nth_error {A} (l : list A) (n : nat) (a : A) :
  nth_error l n = Some a -> getitem l (Z.of_nat n) = ret a.
Proof.
  intros H. unfold getitem.
  assert (E : (Z.of_nat n <? 0) = false) by (apply Z.ltb_ge; lia).
  rewrite E. cbv zeta. now rewrite E, Nat2Z.id, H.
Qed.

Lemma top_result (K_ndim : tensor -> Z) (pooling_func : list str) (classes : Z)
    (output_activation : option str) (x : tensor) (p : str) :
  0 < classes -> nth_error pooling_func 1 = Some p ->
  let act := match output_activation with None => lit "softmax" | Some a => a end in
  let fc := lit "fc" ++ str_of_Z classes in
  exists x',
    fst (top K_ndim pooling_func classes output_activation x)
    = Ok (Out (if startswith act (lit "complex_")
               then ComplexDense classes (skipn 8 act) fc
               else Dense classes act fc) [x']).
Proof.
  intros Hc Hp act fc. unfold top.
  replace (0 <? classes) with true by (symmetry; apply Z.ltb_lt; lia).
  cbn [assert]. rewrite bind_ret_l.
  pose proof (getitem_nth_error pooling_func 1 p Hp) as G.
  change (Z.of_nat 1) with 1 in G. rewrite G.
  repeat rewrite bind_ret_l.
  fold act. fold fc.
  set (pooled :=
         if str_eqb p (lit "global_average") then _ else _).
  assert (Hpool : exists y w, pooled = (Ok y, w)).
  { subst pooled. unfold call, ret.
    repeat match goal with
           | |- context [if ?b then _ else _] => destruct b
           end; eauto. }
  destruct Hpool as (y & w & ->). cbn [bind].
  destruct (2 <? K_ndim y); cbn [call ret bind];
    destruct (startswith act (lit "complex_")); cbn; eauto.
Qed.

(** C9.  With a classification head (a positive class count, a second entry in
    [pooling_func], stem and stages built): an unspecified output activation
    is "softmax"; the model output is a complex dense layer, its activation the
    requested one without the "complex_" prefix, when the requested activation
    starts with "complex_", and a standard dense layer with the requested
    activation otherwise; either has [classes] units. *)
Theorem dense_head_selection
    (idf : str) (K_ndim : tensor -> Z) (inputs : tensor) (num_blocks : list Z)
    (block_func : block_builder) (activation : str) (n_filters : Z)
    (pooling_func : list str) (classes : Z) (numerical_names : option (list bool))
    (output_activation : option str)
    (x : tensor) (outputs : list tensor) (p : str) :
  fst (features idf inputs num_blocks block_func activation n_filters
         pooling_func numerical_names) = Ok (x, outputs) ->
  0 < classes ->
  nth_error pooling_func 1 = Some p ->
  let act := match output_activation with None => lit "softmax" | Some a => a end in
  let fc := lit "fc" ++ str_of_Z classes in
  exists x',
    fst (ResNet2D idf K_ndim inputs num_blocks block_func activation n_filters
           pooling_func true classes numerical_names output_activation)
    = Ok (KerasModel inputs
            (inl (Out (if startswith act (lit "complex_")
                       then ComplexDense classes (skipn 8 act) fc
                       else Dense classes act fc) [x']))).
Proof.
  intros Hf Hc Hp act fc.
  destruct (top_result K_ndim pooling_func classes output_activation x p Hc Hp)
    as [x' Hx'].
  exists x'. rewrite ResNet2D_features.
  destruct (features _ _ _ _ _ _ _ _) as [[[x0 outs] | e] w];
    cbn in Hf; [| discriminate].
  injection Hf as -> ->. cbn [bind].
  destruct (top K_ndim pooling_func classes output_activation x) as [[t | e] w'];
    cbn in Hx'; [| discriminate].
  injection Hx' as ->. reflexivity.
Qed.

Lemma dense_head_selection_witness :
  exists x',
    fst (ResNet2D (lit "channels_last") (fun _ => 2) (Placeholder 0) [1]
           (as_block_func (basic_3d (lit "channels_last"))) (lit "crelu") 64
           [lit "max"; lit "global_average"] true 3 None
           (Some (lit "complex_sigmoid")))
    = Ok (KerasModel (Placeholder 0)
            (inl (Out (ComplexDense 3 (lit "sigmoid") (lit "fc3")) [x']))).
Proof.
  refine (dense_head_selection (lit "channels_last") (fun _ => 2) (Placeholder 0)
            [1] (as_block_func (basic_3d (lit "channels_last"))) (lit "crelu") 64
            [lit "max"; lit "global_average"] 3 None
            (Some (lit "complex_sigmoid")) _ _ (lit "global_average") _ _ _).
  - reflexivity.
  - lia.
  - reflexivity.
Defined.

(** ** Depth presets *)

(** C10.  The presets of depth 50, 101, 152 and 200 overwrite the caller's
    [numerical_names] before delegating: whatever is passed, the base
    assembler receives [[False, False, False, False]] (depth 50) or
    [[False, True, True, False]] (depths 101, 152, 200), so two calls that differ
    only in [numerical_names] build the same thing. *)
Theorem deep_presets_discard_numerical_names
    (idf : str) (K_ndim : tensor -> Z) (bottleneck_2d : block_builder)
    (inputs : tensor) (num_blocks : option (list Z))
    (block_func : option block_builder) (conv_activation : str) (n_filters : Z)
    (pooling_func : list str) (include_top : bool) (classes : Z)
    (output_activation : option str) (numerical_names : option (list bool)) :
  let bf := match block_func with None => bottleneck_2d | Some f => f end in
  let blocks default := match num_blocks with None => default | Some l => l end in
  let base nb flags :=
    ResNet2D idf K_ndim inputs (blocks nb) bf conv_activation n_filters
      pooling_func include_top classes (Some flags) output_activation in
  ResNet2D50 idf K_ndim bottleneck_2d inputs num_blocks block_func conv_activation
    n_filters pooling_func include_top classes numerical_names output_activation
  = base [3; 4; 6; 3] [false; false; false; false] /\
  ResNet2D101 idf K_ndim bottleneck_2d inputs num_blocks block_func conv_activation
    n_filters pooling_func include_top classes numerical_names output_activation
  = base [3; 4; 23; 3] [false; true; true; false] /\
  ResNet2D152 idf K_ndim bottleneck_2d inputs num_blocks block_func conv_activation
    n_filters pooling_func include_top classes numerical_names output_activation
  = base [3; 8; 36; 3] [false; true; true; false] /\
  ResNet2D200 idf K_ndim bottleneck_2d inputs num_blocks block_func conv_activation
    n_filters pooling_func include_top classes numerical_names output_activation
  = base [3; 24; 36; 3] [false; true; true; false] /\
  forall numerical_names' : option (list bool),
    ResNet2D50 idf K_ndim bottleneck_2d inputs num_blocks block_func conv_activation
      n_filters pooling_func include_top classes numerical_names output_activation
    = ResNet2D50 idf K_ndim bottleneck_2d inputs num_blocks block_func
        conv_activation n_filters pooling_func include_top classes
        numerical_names' output_activation /\
    ResNet2D101 idf K_ndim bottleneck_2d inputs num_blocks block_func conv_activation
      n_filters pooling_func include_top classes numerical_names output_activation
    = ResNet2D101 idf K_ndim bottleneck_2d inputs num_blocks block_func
        conv_activation n_filters pooling_func include_top classes
        numerical_names' output_activation /\
    ResNet2D152 idf K_ndim bottleneck_2d inputs num_blocks block_func conv_activation
      n_filters pooling_func include_top classes numerical_names output_activation
    = ResNet2D152 idf K_ndim bottleneck_2d inputs num_blocks block_func
        conv_activation n_filters pooling_func include_top classes
        numerical_names' output_activation /\
    ResNet2D200 idf K_ndim bottleneck_2d inputs num_blocks block_func conv_activation
      n_filters pooling_func include_top classes numerical_names output_activation
    = ResNet2D200 idf K_ndim bottleneck_2d inputs num_blocks block_func
        conv_activation n_filters pooling_func include_top classes
        numerical_names' output_activation.
Proof.
  cbv zeta. unfold ResNet2D50, ResNet2D101, ResNet2D152, ResNet2D200.
  repeat split.
Qed.

Lemma ResNet2D_default_numerical_names (idf : str) (K_ndim : tensor -> Z)
    inputs num_blocks block_func activation n_filters pooling_func include_top
    classes output_activation :
  ResNet2D idf K_ndim inputs num_blocks block_func activation n_filters
    pooling_func include_top classes None output_activation
  = ResNet2D idf K_ndim inputs num_blocks block_func activation n_filters
      pooling_func include_top classes
      (Some (repeat true (List.length num_blocks))) output_activation.
Proof. reflexivity. Qed.



(** ** Decimal strings *)

Lemma lit_String (c : ascii) (s : string) :
  lit (String c s) = N_of_ascii c :: lit s.
Proof. reflexivity. Qed.

Lemma lit_inj (s t : string) : lit s = lit t -> s = t.
Proof.
  revert t. induction s as [| c s IH]; intros [| d t]; try discriminate.
  - reflexivity.
  - rewrite !lit_String. intros [= Hc Hs].
    f_equal; [| now apply IH].
    rewrite <- (ascii_N_embedding c), <- (ascii_N_embedding d). now f_equal.
Qed.

Lemma str_of_Z_inj (a b : Z) : str_of_Z a = str_of_Z b -> a = b.
Proof.
  unfold str_of_Z. intros H. apply lit_inj in H.
  apply DecimalZ.to_int_inj.
  assert (E : Some (Z.to_int a) = Some (Z.to_int b)).
  { rewrite <- !NilEmpty.isi. now rewrite H. }
  now injection E.
Qed.

Lemma string_of_uint_digits (d : Decimal.uint) :
  Forall (fun c => is_digit c = true) (lit (NilEmpty.string_of_uint d)).
Proof.
  induction d; cbn [NilEmpty.string_of_uint]; rewrite ?lit_String;
    constructor; auto.
Qed.

Lemma str_of_Z_digits (z : Z) :
  0 <= z ->
  Forall (fun c => is_digit c = true) (str_of_Z z) /\ str_of_Z z <> [].
Proof.
  intros Hz. unfold str_of_Z. destruct z as [| p | p]; [| | lia].
  - split; [| discriminate]. repeat constructor.
  - cbn [Z.to_int NilEmpty.string_of_int]. split.
    + apply string_of_uint_digits.
    + pose proof (DecimalPos.Unsigned.to_uint_nonnil p) as Hn.
      destruct (Pos.to_uint p); try discriminate. now elim Hn.
Qed.

(** ** Reading a layer name back *)

(** Two digit runs, each followed by something that does not go on with a
    digit, agree when their concatenations do. *)
Lemma digits_split (d d' r r' : str) :
  Forall (fun c => is_digit c = true) d ->
  Forall (fun c => is_digit c = true) d' ->
  no_digit_head r -> no_digit_head r' ->
  d ++ r = d' ++ r' ->
  d = d' /\ r = r'.
Proof.
  intros Hd. revert d'.
  induction Hd as [| c d Hc Hd IH]; intros d' Hd' Hr Hr' E.
  - destruct Hd' as [| c' d' Hc' Hd']; [now split |].
    cbn in E. subst r. cbn in Hr. congruence.
  - destruct Hd' as [| c' d' Hc' Hd'].
    + cbn in E. subst r'. cbn in Hr'. congruence.
    + cbn in E. injection E as -> E.
      destruct (IH d' Hd' Hr Hr' E) as [-> ->]. now split.
Qed.

Lemma role_inj (r r' x x' : str) :
  In r roles -> In r' roles -> r ++ x = r' ++ x' -> r = r' /\ x = x'.
Proof.
  unfold roles. cbn.
  intros [<- | [<- | [<- | []]]] [<- | [<- | [<- | []]]] E;
    cbn in E; try discriminate; split; try reflexivity; now inversion E.
Qed.

Lemma suffix_no_digit_head (activation suffix : str) :
  In suffix (suffixes activation) -> no_digit_head suffix.
Proof.
  unfold suffixes. cbn.
  intros H. repeat (destruct H as [<- | H]; [now cbn |]). destruct H.
Qed.

(** The two shapes of a block character. *)
Lemma block_char_shape (block : Z) (numerical_name : bool) (c : str) :
  block_char block numerical_name = ret c ->
  (0 < block /\ numerical_name = true /\ c = 98%N :: str_of_Z block) \/
  ((block <= 0 \/ numerical_name = false) /\ 0 <= ord_a + block /\
   c = [Z.to_N (ord_a + block)]).
Proof.
  unfold block_char.
  destruct (Z.ltb_spec 0 block) as [Hb | Hb]; cbn [andb].
  - destruct numerical_name.
    + intros [= <-]. left. auto.
    + destruct (chr_cases (ord_a + block)) as [[H ->] | [e ->]];
        [| discriminate].
      intros [= <-]. right. repeat split; [auto | lia].
  - destruct (chr_cases (ord_a + block)) as [[H ->] | [e ->]];
      [| discriminate].
    intros [= <-]. right. repeat split; [auto | lia].
Qed.

Lemma block_char_no_digit_head (block : Z) (numerical_name : bool) (c rest : str) :
  0 <= block ->
  block_char block numerical_name = ret c ->
  no_digit_head (c ++ rest) /\ c <> [].
Proof.
  intros Hb H.
  destruct (block_char_shape _ _ _ H) as [(_ & _ & ->) | (_ & _ & ->)].
  - split; [reflexivity | discriminate].
  - split; [| discriminate]. cbn [app no_digit_head]. unfold is_digit, ord_a.
    apply andb_false_iff. right. apply N.leb_gt. lia.
Qed.

(** A block layer name determines its stage, and its block among the blocks
    that share the naming flag of the stage. *)
Lemma block_layer_name_inj (activation : str) (s b s' b' : Z) (F F' : bool)
    (n : str) :
  0 <= s -> 0 <= b -> 0 <= s' -> 0 <= b' ->
  (s = s' -> F = F') ->
  block_layer_name activation s b F n ->
  block_layer_name activation s' b' F' n ->
  s = s' /\ b = b'.
Proof.
  intros Hs Hb Hs' Hb' HF
    (r & c & suf & Hr & Hc & Hsuf & ->) (r' & c' & suf' & Hr' & Hc' & Hsuf' & E).
  destruct (role_inj _ _ _ _ Hr Hr' E) as [_ E1].
  destruct (str_of_Z_digits (s + 2)) as [Hd _]; [lia |].
  destruct (str_of_Z_digits (s' + 2)) as [Hd' _]; [lia |].
  destruct (block_char_no_digit_head b F c suf Hb Hc) as [Hn _].
  destruct (block_char_no_digit_head b' F' c' suf' Hb' Hc') as [Hn' _].
  destruct (digits_split _ _ _ _ Hd Hd' Hn Hn' E1) as [Es E2].
  apply str_of_Z_inj in Es. assert (s = s') as <- by lia.
  split; [reflexivity |]. specialize (HF eq_refl). subst F'.
  pose proof (suffix_no_digit_head _ _ Hsuf) as Ht.
  pose proof (suffix_no_digit_head _ _ Hsuf') as Ht'.
  destruct (block_char_shape _ _ _ Hc) as [(Hp & HFt & ->) | (Hz & Ho & ->)];
    destruct (block_char_shape _ _ _ Hc') as [(Hp' & HFt' & ->) | (Hz' & Ho' & ->)].
  - cbn [app] in E2. injection E2 as E2.
    destruct (str_of_Z_digits b) as [Hdb _]; [lia |].
    destruct (str_of_Z_digits b') as [Hdb' _]; [lia |].
    destruct (digits_split _ _ _ _ Hdb Hdb' Ht Ht' E2) as [Eb _].
    now apply str_of_Z_inj.
  - apply (f_equal (hd 0%N)) in E2. cbn [app hd] in E2.
    unfold ord_a in *.
    destruct Hz' as [Hz' | Hz']; [lia | congruence].
  - apply (f_equal (hd 0%N)) in E2. cbn [app hd] in E2.
    unfold ord_a in *.
    destruct Hz as [Hz | Hz]; [lia | congruence].
  - apply (f_equal (hd 0%N)) in E2. cbn [app hd] in E2.
    unfold ord_a in *. lia.
Qed.

(** ** The names of one block *)

Lemma basic_3d_gives_names (idf : str) (filters stage block : Z)
    (kernel_size : size_arg) (numerical_name : bool) (stride : option size_arg)
    (activation : str) :
  match basic_3d idf filters stage block kernel_size numerical_name stride
          activation with
  | (Ok f, w) =>
      w = [] /\
      exists c, block_char block numerical_name = ret c /\
        forall x, names (f x)
                  = basic_3d_names (stage_char stage) c activation (block =? 0) /\
                  exists y, fst (f x) = Ok y
  | (Raise _, w) => w = []
  end.
Proof.
  unfold basic_3d.
  pose proof (block_char_created block numerical_name) as Hw.
  destruct (block_char block numerical_name) as [[c | e] w]; cbn in Hw; subst w;
    cbn [bind ret app]; [| reflexivity].
  split; [reflexivity |]. exists c. split; [reflexivity |]. intros x.
  unfold basic_3d_names, names, created, layer_activation, call.
  destruct (block =? 0); cbn [bind ret snd fst app names_of flat_map layer_name];
    eauto.
Qed.

Lemma bottleneck_3d_gives_names (idf : str) (filters stage block : Z)
    (kernel_size : size_arg) (numerical_name : bool) (stride : option size_arg)
    (activation : str) :
  match bottleneck_3d idf filters stage block kernel_size numerical_name stride
          activation with
  | (Ok f, w) =>
      w = [] /\
      exists c, block_char block numerical_name = ret c /\
        forall x, names (f x)
                  = bottleneck_3d_names (stage_char stage) c activation (block =? 0) /\
                  exists y, fst (f x) = Ok y
  | (Raise _, w) => w = []
  end.
Proof.
  unfold bottleneck_3d.
  pose proof (block_char_created block numerical_name) as Hw.
  destruct (block_char block numerical_name) as [[c | e] w]; cbn in Hw; subst w;
    cbn [bind ret app]; [| reflexivity].
  split; [reflexivity |]. exists c. split; [reflexivity |]. intros x.
  unfold bottleneck_3d_names, names, created, layer_activation, call.
  destruct (block =? 0); cbn [bind ret snd fst app names_of flat_map layer_name];
    eauto.
Qed.

(** Settles an equation between two block layer names: either the literal
    parts differ, or the activation would have to be a branch tag, or the
    activation would have to be its own proper suffix. *)
Ltac name_neq H :=
  cbn in H;
  repeat first [ discriminate H
               | injection H as H
               | apply app_inv_head in H ];
  first [ congruence
        | apply (f_equal (@List.length N)) in H;
          rewrite ?List.length_app in H; cbn [List.length] in H; lia ].

Ltac names_distinct :=
  repeat (constructor; [cbn [In]; intuition idtac |]);
  try apply NoDup_nil;
  match goal with
  | H : _ = _ |- False => name_neq H
  end.

Section BlockNames.

Variables sc c activation : str.

Lemma basic_3d_names_NoDup (first : bool) :
  ~ In activation basic_branch_tags ->
  NoDup (basic_3d_names sc c activation first).
Proof.
  intros Ht.
  assert (T1 : activation <> lit "branch2a") by (intros ->; apply Ht; cbn; auto).
  assert (T2 : activation <> lit "branch2b") by (intros ->; apply Ht; cbn; auto).
  assert (T3 : activation <> lit "branch1") by (intros ->; apply Ht; cbn; auto).
  cbn in T1, T2, T3. clear Ht.
  unfold basic_3d_names. destruct first; cbn [app]; names_distinct.
Qed.

Lemma bottleneck_3d_names_NoDup (first : bool) :
  ~ In activation bottleneck_branch_tags ->
  NoDup (bottleneck_3d_names sc c activation first).
Proof.
  intros Ht.
  assert (T1 : activation <> lit "branch2a") by (intros ->; apply Ht; cbn; auto).
  assert (T2 : activation <> lit "branch2b") by (intros ->; apply Ht; cbn; auto).
  assert (T3 : activation <> lit "branch2c") by (intros ->; apply Ht; cbn; auto).
  assert (T4 : activation <> lit "branch1") by (intros ->; apply Ht; cbn; auto).
  cbn in T1, T2, T3, T4. clear Ht.
  unfold bottleneck_3d_names. destruct first; cbn [app]; names_distinct.
Qed.

End BlockNames.

Ltac block_name Hc c :=
  first [ eexists _, _, _;
          split; [| split; [exact Hc | split; [| reflexivity]]]
        | exists (lit "res"), c, [];
          split; [| split; [exact Hc | split; [| now rewrite app_nil_r]]] ];
  cbn; auto 15.

Lemma basic_3d_names_forms (activation : str) (stage block : Z)
    (numerical_name : bool) (c : str) (first : bool) :
  block_char block numerical_name = ret c ->
  Forall (block_layer_name activation stage block numerical_name)
    (basic_3d_names (stage_char stage) c activation first).
Proof.
  intros Hc. unfold basic_3d_names.
  destruct first; cbn [app]; repeat constructor; block_name Hc c.
Qed.

Lemma bottleneck_3d_names_forms (activation : str) (stage block : Z)
    (numerical_name : bool) (c : str) (first : bool) :
  block_char block numerical_name = ret c ->
  Forall (block_layer_name activation stage block numerical_name)
    (bottleneck_3d_names (stage_char stage) c activation first).
Proof.
  intros Hc. unfold bottleneck_3d_names.
  destruct first; cbn [app]; repeat constructor; block_name Hc c.
Qed.

Lemma basic_3d_well_named (idf activation : str) :
  ~ In activation basic_branch_tags ->
  well_named (as_block_func (basic_3d idf)) activation.
Proof.
  intros Ht stage block nn.
  exists (match fst (block_char block nn) with
          | Ok c => Some (basic_3d_names (stage_char stage) c activation
                            (block =? 0))
          | Raise _ => None
          end).
  split.
  - intros l Hl.
    destruct (block_char block nn) as [[c | e] w] eqn:Hc; cbn in Hl;
      [| discriminate].
    injection Hl as <-.
    pose proof (block_char_created block nn) as Hw.
    rewrite Hc in Hw. cbn in Hw. subst w.
    split; [now apply basic_3d_names_NoDup | now apply basic_3d_names_forms].
  - intros filters. unfold as_block_func.
    pose proof (basic_3d_gives_names idf filters stage block (Int 3) nn None
                  activation) as H.
    unfold basic_3d in *.
    destruct (block_char block nn) as [[c | e] w]; cbn [bind ret fst] in *.
    + destruct H as (-> & c' & [= <-] & Hx). split; [reflexivity |].
      eexists. split; [reflexivity |].
      intros x. destruct (Hx x) as (Hn & y & Hy). split; [exact Hn |].
      unfold is_ok. now rewrite Hy.
    + split; [exact H | reflexivity].
Qed.

Lemma bottleneck_3d_well_named (idf activation : str) :
  ~ In activation bottleneck_branch_tags ->
  well_named (as_block_func (bottleneck_3d idf)) activation.
Proof.
  intros Ht stage block nn.
  exists (match fst (block_char block nn) with
          | Ok c => Some (bottleneck_3d_names (stage_char stage) c activation
                            (block =? 0))
          | Raise _ => None
          end).
  split.
  - intros l Hl.
    destruct (block_char block nn) as [[c | e] w] eqn:Hc; cbn in Hl;
      [| discriminate].
    injection Hl as <-.
    pose proof (block_char_created block nn) as Hw.
    rewrite Hc in Hw. cbn in Hw. subst w.
    split; [now apply bottleneck_3d_names_NoDup
           | now apply bottleneck_3d_names_forms].
  - intros filters. unfold as_block_func.
    pose proof (bottleneck_3d_gives_names idf filters stage block (Int 3) nn None
                  activation) as H.
    unfold bottleneck_3d in *.
    destruct (block_char block nn) as [[c | e] w]; cbn [bind ret fst] in *.
    + destruct H as (-> & c' & [= <-] & Hx). split; [reflexivity |].
      eexists. split; [reflexivity |].
      intros x. destruct (Hx x) as (Hn & y & Hy). split; [exact Hn |].
      unfold is_ok. now rewrite Hy.
    + split; [exact H | reflexivity].
Qed.

(** ** Names along a construction *)

Lemma fst_bind {A B} (m : M A) (f : A -> M B) :
  fst (bind m f) = match fst m with Ok a => fst (f a) | Raise e => Raise e end.
Proof.
  destruct m as [[a | e] w]; cbn; [| reflexivity]. now destruct (f a).
Qed.

Lemma names_in_ret {A} (P : str -> Prop) (a : A) : names_in P (ret a).
Proof. split; constructor. Qed.

Lemma names_in_raise {A} (P : str -> Prop) (e : error) :
  names_in P (@raise A e).
Proof. split; constructor. Qed.

Lemma names_in_weaken {A} (P Q : str -> Prop) (m : M A) :
  (forall n, P n -> Q n) -> names_in P m -> names_in Q m.
Proof.
  intros H [Hn Hf]. split; [exact Hn |].
  eapply Forall_impl; eassumption.
Qed.

Lemma names_in_bind {A B} (P Q : str -> Prop) (m : M A) (f : A -> M B) :
  names_in P m ->
  (forall a, fst m = Ok a -> names_in Q (f a)) ->
  (forall n, P n -> Q n -> False) ->
  names_in (fun n => P n \/ Q n) (bind m f).
Proof.
  intros [Hn Hp] Hf Hd. unfold names_in. rewrite names_bind.
  destruct (fst m) as [a | e].
  - destruct (Hf a eq_refl) as [Hn' Hq]. split.
    + apply NoDup_app; [assumption .. |].
      intros n Hin Hin'. rewrite Forall_forall in Hp, Hq. eauto.
    + apply Forall_app. split; eapply Forall_impl; try eassumption; cbn; auto.
  - rewrite app_nil_r. split; [assumption |].
    eapply Forall_impl; try eassumption; cbn; auto.
Qed.

Lemma same_names_refl {A} (m : M A) : same_names m m.
Proof. now split. Qed.

Lemma same_names_bind {A A' B B'} (m : M A) (m' : M A')
    (f : A -> M B) (f' : A' -> M B') :
  same_names m m' ->
  (forall a a', fst m = Ok a -> fst m' = Ok a' -> same_names (f a) (f' a')) ->
  same_names (bind m f) (bind m' f').
Proof.
  intros [Hn Ho] Hf. unfold same_names, is_ok in *.
  rewrite !names_bind, !fst_bind, Hn.
  destruct (fst m) as [a | e], (fst m') as [a' | e']; try discriminate.
  - destruct (Hf a a' eq_refl eq_refl) as [-> Hk]. now split.
  - now split.
Qed.

Lemma getitem_created {A} (l : list A) (i : Z) : created (getitem l i) = [].
Proof.
  unfold getitem. cbv zeta.
  destruct (_ <? 0); [reflexivity |]. now destruct (nth_error _ _).
Qed.

Lemma getitem_stage_flag (numerical_names : list bool) (stage_id : Z) (v : bool) :
  0 <= stage_id ->
  fst (getitem numerical_names stage_id) = Ok v ->
  v = stage_flag numerical_names stage_id.
Proof.
  intros Hs. unfold getitem, stage_flag.
  assert (E : (stage_id <? 0) = false) by (apply Z.ltb_ge; lia).
  rewrite E. cbv zeta. rewrite E.
  destruct (nth_error numerical_names (Z.to_nat stage_id)) as [v' |] eqn:Hn;
    [| discriminate].
  intros [= <-]. symmetry. now apply nth_error_nth.
Qed.

Lemma block_char_flag_irrelevant (block : Z) (nn nn' : bool) :
  block <= 0 -> block_char block nn = block_char block nn'.
Proof.
  intros H. unfold block_char.
  now replace (0 <? block) with false by (symmetry; apply Z.ltb_ge; lia).
Qed.

Lemma block_layer_name_flag (activation : str) (stage block : Z) (nn nn' : bool)
    (n : str) :
  block <= 0 ->
  block_layer_name activation stage block nn n ->
  block_layer_name activation stage block nn' n.
Proof.
  intros H (r & c & suf & Hr & Hc & Hsuf & ->).
  exists r, c, suf. rewrite (block_char_flag_irrelevant block nn' nn H). auto.
Qed.

(** ** Names along the loops *)

Lemma NoDup_map_of_nat (l : list nat) : NoDup l -> NoDup (map Z.of_nat l).
Proof.
  induction 1 as [| n l Hn Hl IH]; cbn; constructor; [| assumption].
  intros H. apply in_map_iff in H as (m & E & Hm).
  apply Nat2Z.inj in E. now subst m.
Qed.

Lemma in_map_of_nat (l : list nat) (z : Z) : In z (map Z.of_nat l) -> 0 <= z.
Proof. intros H. apply in_map_iff in H as (m & <- & _). lia. Qed.

Lemma range_NoDup (n : Z) : NoDup (range n).
Proof. apply NoDup_map_of_nat, seq_NoDup. Qed.

Lemma map_fst_combine {A B} (a : list A) (l : list B) :
  List.length a = List.length l -> map fst (combine a l) = a.
Proof.
  revert l. induction a as [| x a IH]; intros [| y l]; cbn; try easy.
  intros [= H]. now rewrite IH.
Qed.

Lemma enumerate_fst {A} (l : list A) :
  map fst (enumerate l) = map Z.of_nat (seq 0 (List.length l)).
Proof.
  unfold enumerate. apply map_fst_combine.
  now rewrite length_map, length_seq.
Qed.

Lemma for_block_id_cons (block_func : block_builder) (n_filters stage_id : Z)
    (numerical_names : list bool) (activation : str) (block_id : Z)
    (block_ids : list Z) (x : tensor) :
  for_block_id block_func n_filters stage_id numerical_names activation
    (block_id :: block_ids) x
  = bind (block_call block_func n_filters stage_id numerical_names activation
            block_id x)
      (for_block_id block_func n_filters stage_id numerical_names activation
         block_ids).
Proof.
  cbn [for_block_id]. unfold block_call.
  rewrite !bind_assoc.
  destruct (if 0 <? block_id then _ else _) as [[nn | e] w]; [| reflexivity].
  cbn [bind]. rewrite bind_assoc. reflexivity.
Qed.

Section Loops.

Variable block_func : block_builder.
Variable activation : str.
Hypothesis Hbf : well_named block_func activation.
Variable numerical_names : list bool.

Lemma block_call_names (n_filters stage_id block_id : Z) (x : tensor) :
  0 <= stage_id -> 0 <= block_id ->
  names_in (block_layer_name activation stage_id block_id
              (stage_flag numerical_names stage_id))
    (block_call block_func n_filters stage_id numerical_names activation
       block_id x).
Proof.
  intros Hs Hb. unfold block_call.
  set (m0 := if 0 <? block_id then _ else _).
  assert (Hw : created m0 = []).
  { subst m0. destruct (0 <? block_id); [apply getitem_created | reflexivity]. }
  destruct m0 as [[nn | e] w] eqn:Hm0; cbn in Hw; subst w;
    [| apply names_in_raise].
  change (Ok nn, @nil layer) with (ret nn). rewrite bind_ret_l.
  assert (Hflag : forall n,
             block_layer_name activation stage_id block_id nn n ->
             block_layer_name activation stage_id block_id
               (stage_flag numerical_names stage_id) n).
  { intros n Hn. subst m0. destruct (Z.ltb_spec 0 block_id) as [Hp | Hp].
    - rewrite <- (getitem_stage_flag numerical_names stage_id nn Hs); [exact Hn |].
      now rewrite Hm0.
    - eapply block_layer_name_flag; [lia | exact Hn]. }
  destruct (Hbf stage_id block_id nn) as (plan & Hplan & Hrun).
  specialize (Hrun n_filters).
  destruct (block_func n_filters stage_id block_id nn activation)
    as [[f | e] w].
  - destruct Hrun as (-> & l & -> & Hx).
    change (Ok f, @nil layer) with (ret f). rewrite bind_ret_l.
    destruct (Hx x) as [Hn _]. destruct (Hplan l eq_refl) as [Hnd Hall].
    unfold names_in. rewrite Hn. split; [exact Hnd |].
    eapply Forall_impl; [exact Hflag | exact Hall].
  - destruct Hrun as [-> _]. apply names_in_raise.
Qed.

Lemma for_block_id_names (n_filters stage_id : Z) :
  0 <= stage_id ->
  forall (block_ids : list Z) (x : tensor),
    NoDup block_ids -> (forall b, In b block_ids -> 0 <= b) ->
    names_in (fun n => exists b, In b block_ids /\ 0 <= b /\
                block_layer_name activation stage_id b
                  (stage_flag numerical_names stage_id) n)
      (for_block_id block_func n_filters stage_id numerical_names activation
         block_ids x).
Proof.
  intros Hs. induction block_ids as [| b ids IH]; intros x Hnd Hpos.
  - apply names_in_ret.
  - rewrite for_block_id_cons.
    apply NoDup_cons_iff in Hnd as [Hb Hnd].
    eapply names_in_weaken;
      [| eapply names_in_bind;
         [ apply (block_call_names n_filters stage_id b x Hs);
           apply Hpos; now left
         | intros a _; apply (IH a Hnd); intros; apply Hpos; now right
         | ] ].
    + cbn beta. intros n [Hn | (b' & Hin & Hb' & Hn)].
      * exists b. repeat split; [now left | apply Hpos; now left | exact Hn].
      * exists b'. repeat split; [now right | exact Hb' | exact Hn].
    + cbn beta. intros n Hn (b' & Hin & Hb' & Hn').
      destruct (block_layer_name_inj activation stage_id b stage_id b'
                  (stage_flag numerical_names stage_id)
                  (stage_flag numerical_names stage_id) n)
        as [_ E]; try assumption; try reflexivity.
      * apply Hpos. now left.
      * subst b'. contradiction.
Qed.

Lemma for_stage_id_names (stages : list (Z * Z)) :
  forall (n_filters : Z) (x : tensor) (outputs : list tensor),
    NoDup (map fst stages) -> (forall s, In s (map fst stages) -> 0 <= s) ->
    names_in (fun n => exists s b, In s (map fst stages) /\ 0 <= s /\ 0 <= b /\
                block_layer_name activation s b (stage_flag numerical_names s) n)
      (for_stage_id block_func numerical_names activation stages n_filters x
         outputs).
Proof.
  induction stages as [| [s iterations] stages IH];
    intros n_filters x outputs Hnd Hpos.
  - apply names_in_ret.
  - cbn [for_stage_id]. cbn [map fst] in Hnd, Hpos.
    apply NoDup_cons_iff in Hnd as [Hs Hnd].
    assert (Hs0 : 0 <= s) by (apply Hpos; now left).
    eapply names_in_weaken;
      [| eapply names_in_bind;
         [ apply (for_block_id_names n_filters s Hs0 (range iterations) x);
           [apply range_NoDup | apply in_map_of_nat]
         | intros a _; apply (IH (n_filters * 2) a (outputs ++ [a]) Hnd);
           intros; apply Hpos; now right
         | ] ].
    + cbn beta. intros n [(b & _ & Hb & Hn) | (s' & b & Hin & Hs' & Hb & Hn)].
      * exists s, b. repeat split; [now left | assumption ..].
      * exists s', b. repeat split; [now right | assumption ..].
    + cbn beta. intros n (b & _ & Hb & Hn) (s' & b' & Hin & Hs' & Hb' & Hn').
      destruct (block_layer_name_inj activation s b s' b'
                  (stage_flag numerical_names s)
                  (stage_flag numerical_names s') n)
        as [E _]; try assumption.
      * now intros ->.
      * subst s'. contradiction.
Qed.

End Loops.

(** ** Names do not depend on the tensors or the filter count *)

Lemma basic_3d_names_fixed (idf activation : str) :
  names_fixed (as_block_func (basic_3d idf)) activation.
Proof.
  intros stage block nn.
  exists (match fst (block_char block nn) with
          | Ok c => Some (basic_3d_names (stage_char stage) c activation
                            (block =? 0))
          | Raise _ => None
          end).
  intros filters. unfold as_block_func.
  pose proof (basic_3d_gives_names idf filters stage block (Int 3) nn None
                activation) as H.
  unfold basic_3d in *.
  destruct (block_char block nn) as [[c | e] w]; cbn [bind ret fst] in *.
  - destruct H as (-> & c' & [= <-] & Hx). split; [reflexivity |].
    eexists. split; [reflexivity |].
    intros x. destruct (Hx x) as (Hn & y & Hy). split; [exact Hn |].
    unfold is_ok. now rewrite Hy.
  - split; [exact H | reflexivity].
Qed.

Lemma bottleneck_3d_names_fixed (idf activation : str) :
  names_fixed (as_block_func (bottleneck_3d idf)) activation.
Proof.
  intros stage block nn.
  exists (match fst (block_char block nn) with
          | Ok c => Some (bottleneck_3d_names (stage_char stage) c activation
                            (block =? 0))
          | Raise _ => None
          end).
  intros filters. unfold as_block_func.
  pose proof (bottleneck_3d_gives_names idf filters stage block (Int 3) nn None
                activation) as H.
  unfold bottleneck_3d in *.
  destruct (block_char block nn) as [[c | e] w]; cbn [bind ret fst] in *.
  - destruct H as (-> & c' & [= <-] & Hx). split; [reflexivity |].
    eexists. split; [reflexivity |].
    intros x. destruct (Hx x) as (Hn & y & Hy). split; [exact Hn |].
    unfold is_ok. now rewrite Hy.
  - split; [exact H | reflexivity].
Qed.

Section SameNames.

Variable block_func : block_builder.
Variable activation : str.
Hypothesis Hbf : names_fixed block_func activation.
Variable numerical_names : list bool.

Lemma block_call_same (n_filters n_filters' stage_id block_id : Z)
    (x x' : tensor) :
  same_names
    (block_call block_func n_filters stage_id numerical_names activation
       block_id x)
    (block_call block_func n_filters' stage_id numerical_names activation
       block_id x').
Proof.
  unfold block_call. apply same_names_bind; [apply same_names_refl |].
  intros nn nn' H H'. rewrite H in H'. injection H' as <-.
  destruct (Hbf stage_id block_id nn) as (plan & Hrun).
  pose proof (Hrun n_filters) as H1. pose proof (Hrun n_filters') as H2.
  destruct (block_func n_filters stage_id block_id nn activation)
    as [[f | e] w];
    destruct (block_func n_filters' stage_id block_id nn activation)
      as [[f' | e'] w'].
  - destruct H1 as (-> & l & -> & Hx). destruct H2 as (-> & l' & [= <-] & Hx').
    change (Ok f, @nil layer) with (ret f).
    change (Ok f', @nil layer) with (ret f'). rewrite !bind_ret_l.
    unfold same_names. destruct (Hx x) as [-> ->]. destruct (Hx' x') as [-> ->]. now split.
  - destruct H1 as (_ & l & -> & _). destruct H2 as [_ [=]].
  - destruct H2 as (_ & l & -> & _). destruct H1 as [_ [=]].
  - destruct H1 as [-> _]. destruct H2 as [-> _]. now split.
Qed.

Lemma for_block_id_same (stage_id : Z) (block_ids : list Z) :
  forall (n_filters n_filters' : Z) (x x' : tensor),
    same_names
      (for_block_id block_func n_filters stage_id numerical_names activation
         block_ids x)
      (for_block_id block_func n_filters' stage_id numerical_names activation
         block_ids x').
Proof.
  induction block_ids as [| b ids IH]; intros n_filters n_filters' x x'.
  - now split.
  - rewrite !for_block_id_cons.
    apply same_names_bind; [apply block_call_same | intros; apply IH].
Qed.

Lemma for_stage_id_same (stages : list (Z * Z)) :
  forall (n_filters n_filters' : Z) (x x' : tensor)
         (outputs outputs' : list tensor),
    same_names
      (for_stage_id block_func numerical_names activation stages n_filters x
         outputs)
      (for_stage_id block_func numerical_names activation stages n_filters' x'
         outputs').
Proof.
  induction stages as [| [s iterations] stages IH];
    intros n_filters n_filters' x x' outputs outputs'.
  - now split.
  - cbn [for_stage_id].
    apply same_names_bind; [apply for_block_id_same | intros; apply IH].
Qed.

End SameNames.

Ltac same_step :=
  first
    [ apply same_names_refl
    | match goal with
      | |- same_names (if ?b then _ else _) (if ?b then _ else _) => destruct b
      end
    | apply same_names_bind;
      [| let a := fresh "a" in
         let a' := fresh "a" in
         let H := fresh "H" in
         let H' := fresh "H" in
         intros a a' H H'; try (rewrite H in H'; injection H' as <-) ]
    | split; reflexivity ].

Lemma stem_same (idf : str) (inputs inputs' : tensor) (activation : str)
    (n_filters n_filters' : Z) (pooling_func : list str) :
  same_names (stem idf inputs activation n_filters pooling_func)
    (stem idf inputs' activation n_filters' pooling_func).
Proof.
  unfold stem, layer_activation. repeat same_step.
Qed.

Lemma top_same (K_ndim K_ndim' : tensor -> Z) (pooling_func : list str)
    (classes : Z) (output_activation : option str) (x x' : tensor) :
  same_names (top K_ndim pooling_func classes output_activation x)
    (top K_ndim' pooling_func classes output_activation x').
Proof.
  unfold top. repeat same_step.
  all: try (destruct (2 <? K_ndim _), (2 <? K_ndim' _); split; reflexivity).
Qed.

(** ** Names of the stem and of the head *)

Lemma getitem_cases {A} (l : list A) (i : Z) :
  (exists a, getitem l i = ret a) \/ getitem l i = raise IndexError.
Proof.
  unfold getitem. cbv zeta.
  destruct (_ <? 0); [now right |].
  destruct (nth_error _ _); [left; eauto | now right].
Qed.

Ltac run_names :=
  cbn [bind ret raise snd fst app names_of flat_map layer_name];
  repeat (match goal with
          | |- context [if ?b then _ else _] => destruct b
          end;
          cbn [bind ret raise snd fst app names_of flat_map layer_name]).

Lemma stem_names_in (idf : str) (inputs : tensor) (activation : str)
    (n_filters : Z) (pooling_func : list str) :
  names_in (fun n => In n (stem_names activation))
    (stem idf inputs activation n_filters pooling_func).
Proof.
  unfold names_in, names, created, stem, stem_names, layer_activation, call.
  destruct (getitem_cases pooling_func 0) as [[p ->] | ->]; run_names;
    (split; [names_distinct
           | repeat (apply Forall_cons; [cbn; auto 10 |]); apply Forall_nil]).
Qed.

Lemma top_names_in (K_ndim : tensor -> Z) (pooling_func : list str)
    (classes : Z) (output_activation : option str) (x : tensor) :
  names_in (fun n => In n (top_names classes))
    (top K_ndim pooling_func classes output_activation x).
Proof.
  unfold names_in, names, created, top, top_names, call, assert.
  generalize (str_of_Z classes). intros fc.
  destruct (0 <? classes); [| split; constructor].
  destruct (getitem_cases pooling_func 1) as [[p ->] | ->]; run_names;
    (split; [names_distinct
           | repeat (apply Forall_cons; [cbn; auto 10 |]); apply Forall_nil]).
Qed.

Lemma fixed_name_not_block (activation : str) (classes stage block : Z)
    (numerical_name : bool) (n : str) :
  0 <= stage ->
  In n (stem_names activation) \/ In n (top_names classes) ->
  block_layer_name activation stage block numerical_name n ->
  False.
Proof.
  intros Hs Hn (r & c & suf & Hr & _ & _ & E).
  destruct (str_of_Z_digits (stage + 2)) as [Hd Hne]; [lia |].
  fold (stage_char stage) in Hd, Hne.
  revert E Hd Hne. generalize (stage_char stage). intros sc E Hd Hne.
  destruct sc as [| d sc]; [now elim Hne |].
  apply Forall_inv in Hd.
  unfold stem_names, top_names, roles in *. cbn [In] in Hn, Hr.
  destruct Hr as [<- | [<- | [<- | []]]];
    destruct Hn as [[<- | [<- | [<- | [<- | []]]]] | [<- | [<- | []]]];
    cbn in E; try discriminate E.
  injection E as <-. discriminate Hd.
Qed.

Lemma stem_name_not_top (activation : str) (classes : Z) (n : str) :
  In n (stem_names activation) -> In n (top_names classes) -> False.
Proof.
  unfold stem_names, top_names. generalize (str_of_Z classes). intros fc.
  cbn [In].
  intros [<- | [<- | [<- | [<- | []]]]] [E | [E | []]]; cbn in E; discriminate E.
Qed.

(** ** Names of a whole network *)

Lemma names_bind_ret {A B} (m : M A) (g : A -> B) :
  names (bind m (fun a => ret (g a))) = names m.
Proof.
  rewrite names_bind. destruct (fst m); cbn; now rewrite app_nil_r.
Qed.

Lemma is_ok_bind_ret {A B} (m : M A) (g : A -> B) :
  is_ok (bind m (fun a => ret (g a))) = is_ok m.
Proof. unfold is_ok. rewrite fst_bind. now destruct (fst m). Qed.

Section Network.

Variable block_func : block_builder.
Variable activation : str.
Hypothesis Hbf : well_named block_func activation.

Variables (num_blocks : list Z) (pooling_func : list str).
Variables (include_top : bool) (classes : Z).
Variables (numerical_names : option (list bool)) (output_activation : option str).

Lemma after_stem_names_in (K_ndim : tensor -> Z) (inputs : tensor)
    (n_filters : Z) (x : tensor) :
  names_in (fun n => In n (top_names classes) \/
              exists stage block numerical_name,
                0 <= stage /\ 0 <= block /\
                block_layer_name activation stage block numerical_name n)
    (after_stem K_ndim inputs num_blocks block_func activation n_filters
       pooling_func include_top classes numerical_names output_activation x).
Proof.
  unfold after_stem.
  set (flags := match numerical_names with
                | Some l => l
                | None => repeat true (List.length num_blocks)
                end).
  eapply names_in_weaken;
    [| eapply names_in_bind;
       [ apply (for_stage_id_names block_func activation Hbf flags
                  (enumerate num_blocks) n_filters x []);
         rewrite enumerate_fst;
         [apply NoDup_map_of_nat, seq_NoDup | apply in_map_of_nat]
       | intros [y outputs] _;
         instantiate (1 := fun n => In n (top_names classes));
         destruct include_top;
         [ split; rewrite names_bind_ret; apply top_names_in
         | apply names_in_ret ]
       | ] ].
  - cbn beta. intros n [(s & b & _ & Hs & Hb & Hn) | Hn]; [right | now left].
    now exists s, b, (stage_flag flags s).
  - cbn beta. intros n (s & b & _ & Hs & Hb & Hn) Ht.
    eapply fixed_name_not_block; [exact Hs | right; exact Ht | exact Hn].
Qed.

Lemma ResNet2D_names_NoDup (idf : str) (K_ndim : tensor -> Z) (inputs : tensor)
    (n_filters : Z) :
  NoDup (names
           (ResNet2D idf K_ndim inputs num_blocks block_func activation
              n_filters pooling_func include_top classes numerical_names
              output_activation)).
Proof.
  rewrite ResNet2D_after_stem.
  eapply (names_in_weaken _ (fun _ => True));
    [| eapply names_in_bind;
       [ apply stem_names_in
       | intros x _; apply after_stem_names_in
       | ] ].
  - auto.
  - cbn beta. intros n Hs [Ht | (s & b & nn & Hs0 & Hb & Hn)].
    + eapply stem_name_not_top; eassumption.
    + eapply (fixed_name_not_block activation classes);
        [exact Hs0 | left; exact Hs | exact Hn].
Qed.

Lemma ResNet2D_same_names (Hfixed : names_fixed block_func activation)
    (idf : str) (K_ndim K_ndim' : tensor -> Z)
    (inputs inputs' : tensor) (n_filters n_filters' : Z) :
  same_names
    (ResNet2D idf K_ndim inputs num_blocks block_func activation n_filters
       pooling_func include_top classes numerical_names output_activation)
    (ResNet2D idf K_ndim' inputs' num_blocks block_func activation n_filters'
       pooling_func include_top classes numerical_names output_activation).
Proof.
  unfold ResNet2D.
  apply same_names_bind; [apply stem_same |]. intros x x' _ _.
  apply same_names_bind; [now apply for_stage_id_same, Hfixed |].
  intros [y outs] [y' outs'] _ _.
  destruct include_top; [| now split].
  split.
  - rewrite !names_bind_ret. apply top_same.
  - rewrite !is_ok_bind_ret. apply top_same.
Qed.

End Network.

(** ** Names by kind of layer *)

Lemma names_of_cons (l : layer) (w : list layer) :
  names_of (l :: w)
  = match layer_name l with Some n => [n] | None => [] end ++ names_of w.
Proof. reflexivity. Qed.

Section Where.

Variable keep : layer -> bool.

Lemma names_where_app (w1 w2 : list layer) :
  names_where keep (w1 ++ w2) = names_where keep w1 ++ names_where keep w2.
Proof. unfold names_where. now rewrite filter_app, names_of_app. Qed.

Lemma names_where_bind {A B} (m : M A) (f : A -> M B) :
  names_where keep (created (bind m f))
  = names_where keep (created m)
    ++ match fst m with
       | Ok a => names_where keep (created (f a))
       | Raise _ => []
       end.
Proof.
  rewrite created_bind, names_where_app. destruct (fst m); reflexivity.
Qed.

Lemma names_where_incl (w : list layer) (n : str) :
  In n (names_where keep w) -> In n (names_of w).
Proof.
  unfold names_where. induction w as [| l w IH]; [easy |].
  cbn [filter]. rewrite names_of_cons.
  destruct (keep l).
  - rewrite names_of_cons. intros H. apply in_app_or in H as [H | H];
      apply in_or_app; auto.
  - intros H. apply in_or_app. auto.
Qed.

Lemma names_where_NoDup (w : list layer) :
  NoDup (names_of w) -> NoDup (names_where keep w).
Proof.
  induction w as [| l w IH]; [intros _; constructor |].
  rewrite names_of_cons. unfold names_where in *. cbn [filter].
  destruct (layer_name l) as [n |] eqn:Hn; cbn [app]; intros H.
  - apply NoDup_cons_iff in H as [Hnot H].
    destruct (keep l); [| auto].
    rewrite names_of_cons, Hn. cbn [app]. constructor; [| auto].
    intros Hin. apply Hnot. now apply names_where_incl.
  - destruct (keep l); [| auto].
    rewrite names_of_cons, Hn. cbn [app]. auto.
Qed.

Lemma names_in_where_of_names_in {A} (P : str -> Prop) (m : M A) :
  names_in P m -> names_in_where keep P m.
Proof.
  intros [Hn Hp]. split.
  - now apply names_where_NoDup.
  - rewrite Forall_forall in *. intros n Hin.
    apply Hp. now apply names_where_incl.
Qed.

Lemma names_in_where_ret {A} (P : str -> Prop) (a : A) :
  names_in_where keep P (ret a).
Proof. split; constructor. Qed.

Lemma names_in_where_raise {A} (P : str -> Prop) (e : error) :
  names_in_where keep P (@raise A e).
Proof. split; constructor. Qed.

Lemma names_in_where_weaken {A} (P Q : str -> Prop) (m : M A) :
  (forall n, P n -> Q n) -> names_in_where keep P m -> names_in_where keep Q m.
Proof.
  intros H [Hn Hf]. split; [exact Hn |].
  eapply Forall_impl; eassumption.
Qed.

Lemma names_in_where_bind {A B} (P Q : str -> Prop) (m : M A) (f : A -> M B) :
  names_in_where keep P m ->
  (forall a, fst m = Ok a -> names_in_where keep Q (f a)) ->
  (forall n, P n -> Q n -> False) ->
  names_in_where keep (fun n => P n \/ Q n) (bind m f).
Proof.
  intros [Hn Hp] Hf Hd. unfold names_in_where. rewrite names_where_bind.
  destruct (fst m) as [a | e].
  - destruct (Hf a eq_refl) as [Hn' Hq]. split.
    + apply NoDup_app; [assumption .. |].
      intros n Hin Hin'. rewrite Forall_forall in Hp, Hq. eauto.
    + apply Forall_app. split; eapply Forall_impl; try eassumption; cbn; auto.
  - rewrite app_nil_r. split; [assumption |].
    eapply Forall_impl; try eassumption; cbn; auto.
Qed.

Lemma names_where_bind_ret {A B} (m : M A) (g : A -> B) :
  names_where keep (created (bind m (fun a => ret (g a))))
  = names_where keep (created m).
Proof.
  rewrite names_where_bind. destruct (fst m); cbn; now rewrite app_nil_r.
Qed.

End Where.

Lemma names_of_split (w : list layer) (n : str) :
  In n (names_of w) ->
  In n (names_where is_activation w) \/ In n (names_where is_not_activation w).
Proof.
  unfold names_where, is_not_activation.
  induction w as [| l w IH]; [easy |].
  rewrite names_of_cons. intros H. apply in_app_or in H as [H | H].
  - cbn [filter]. destruct (is_activation l); cbn [negb];
      rewrite names_of_cons; [left | right]; apply in_or_app; now left.
  - destruct (IH H) as [H' | H']; [left | right]; cbn [filter];
      destruct (is_activation l); cbn [negb]; rewrite ?names_of_cons;
      try apply in_or_app; auto.
Qed.

(** The selected names of one block: computed from the layers the block
    creates, then compared as strings with the stage tag kept abstract. *)
Ltac block_names_where Hc c :=
  unfold names_in_where, names_where, layer_activation, call, created;
  match goal with
  | |- context [?b =? 0] => destruct (b =? 0)
  end;
  cbn [bind ret snd fst app filter is_activation is_not_activation negb
       names_of flat_map layer_name];
  (split;
   [ match goal with
     | |- context [stage_char ?s] => generalize (stage_char s); intros sc
     end;
     clear Hc; names_distinct
   | repeat (apply Forall_cons; [block_name Hc c |]); apply Forall_nil ]).

Lemma basic_3d_well_named_where (idf activation : str) (keep : layer -> bool) :
  keep = is_activation \/ keep = is_not_activation ->
  well_named_where keep (as_block_func (basic_3d idf)) activation.
Proof.
  intros Hk filters stage block nn. unfold as_block_func, basic_3d.
  pose proof (block_char_created block nn) as Hw.
  destruct (block_char block nn) as [[c | e] w] eqn:Hc; cbn in Hw; subst w;
    cbn [bind ret app]; [| reflexivity].
  split; [reflexivity |]. intros x.
  destruct Hk as [-> | ->]; block_names_where Hc c.
Qed.

Lemma bottleneck_3d_well_named_where (idf activation : str)
    (keep : layer -> bool) :
  keep = is_activation \/ keep = is_not_activation ->
  well_named_where keep (as_block_func (bottleneck_3d idf)) activation.
Proof.
  intros Hk filters stage block nn. unfold as_block_func, bottleneck_3d.
  pose proof (block_char_created block nn) as Hw.
  destruct (block_char block nn) as [[c | e] w] eqn:Hc; cbn in Hw; subst w;
    cbn [bind ret app]; [| reflexivity].
  split; [reflexivity |]. intros x.
  destruct Hk as [-> | ->]; block_names_where Hc c.
Qed.

Lemma in_range_nonneg (n b : Z) : In b (range n) -> 0 <= b.
Proof. apply in_map_of_nat. Qed.

Section LoopsWhere.

Variable keep : layer -> bool.
Variable block_func : block_builder.
Variable activation : str.
Hypothesis Hbf : well_named_where keep block_func activation.
Variable flags : list bool.

Lemma block_call_names_where (n_filters stage_id block_id : Z) (x : tensor) :
  0 <= stage_id ->
  names_in_where keep
    (block_layer_name activation stage_id block_id (stage_flag flags stage_id))
    (block_call block_func n_filters stage_id flags activation block_id x).
Proof.
  intros Hs. unfold block_call.
  set (m0 := if 0 <? block_id then _ else _).
  assert (Hw : created m0 = []).
  { subst m0. destruct (0 <? block_id); [apply getitem_created | reflexivity]. }
  destruct m0 as [[nn | e] w] eqn:Hm0; cbn in Hw; subst w;
    [| apply names_in_where_raise].
  change (Ok nn, @nil layer) with (ret nn). rewrite bind_ret_l.
  assert (Hflag : forall n,
             block_layer_name activation stage_id block_id nn n ->
             block_layer_name activation stage_id block_id
               (stage_flag flags stage_id) n).
  { intros n Hn. subst m0. destruct (Z.ltb_spec 0 block_id) as [Hp | Hp].
    - rewrite <- (getitem_stage_flag flags stage_id nn Hs); [exact Hn |].
      now rewrite Hm0.
    - eapply block_layer_name_flag; [lia | exact Hn]. }
  pose proof (Hbf n_filters stage_id block_id nn) as Hrun.
  destruct (block_func n_filters stage_id block_id nn activation)
    as [[f | e] w].
  - destruct Hrun as [-> Hx].
    change (Ok f, @nil layer) with (ret f). rewrite bind_ret_l.
    eapply names_in_where_weaken; [exact Hflag | apply Hx].
  - subst w. apply names_in_where_raise.
Qed.

Lemma for_block_id_names_where (n_filters stage_id : Z) :
  0 <= stage_id ->
  forall (block_ids : list Z) (x : tensor),
    NoDup block_ids -> (forall b, In b block_ids -> 0 <= b) ->
    names_in_where keep
      (fun n => exists b, In b block_ids /\
                  block_layer_name activation stage_id b
                    (stage_flag flags stage_id) n)
      (for_block_id block_func n_filters stage_id flags activation
         block_ids x).
Proof.
  intros Hs. induction block_ids as [| b ids IH]; intros x Hnd Hpos.
  - apply names_in_where_ret.
  - rewrite for_block_id_cons.
    apply NoDup_cons_iff in Hnd as [Hb Hnd].
    eapply names_in_where_weaken;
      [| eapply names_in_where_bind;
         [ apply (block_call_names_where n_filters stage_id b x Hs)
         | intros a _; apply (IH a Hnd); intros; apply Hpos; now right
         | ] ].
    + cbn beta. intros n [Hn | (b' & Hin & Hn)].
      * exists b. split; [now left | exact Hn].
      * exists b'. split; [now right | exact Hn].
    + cbn beta. intros n Hn (b' & Hin & Hn').
      destruct (block_layer_name_inj activation stage_id b stage_id b'
                  (stage_flag flags stage_id) (stage_flag flags stage_id) n)
        as [_ E]; try assumption; try reflexivity.
      * apply Hpos. now left.
      * apply Hpos. now right.
      * subst b'. contradiction.
Qed.

Lemma for_stage_id_names_where (stages : list (Z * Z)) :
  forall (n_filters : Z) (x : tensor) (outputs : list tensor),
    NoDup (map fst stages) -> (forall s, In s (map fst stages) -> 0 <= s) ->
    names_in_where keep
      (fun n => exists s iterations b,
                  In (s, iterations) stages /\ In b (range iterations) /\
                  block_layer_name activation s b (stage_flag flags s) n)
      (for_stage_id block_func flags activation stages n_filters x outputs).
Proof.
  induction stages as [| [s iterations] stages IH];
    intros n_filters x outputs Hnd Hpos.
  - apply names_in_where_ret.
  - cbn [for_stage_id]. cbn [map fst] in Hnd, Hpos.
    apply NoDup_cons_iff in Hnd as [Hs Hnd].
    assert (Hs0 : 0 <= s) by (apply Hpos; now left).
    eapply names_in_where_weaken;
      [| eapply names_in_where_bind;
         [ apply (for_block_id_names_where n_filters s Hs0 (range iterations) x);
           [apply range_NoDup | apply in_range_nonneg]
         | intros a _; apply (IH (n_filters * 2) a (outputs ++ [a]) Hnd);
           intros; apply Hpos; now right
         | ] ].
    + cbn beta. intros n [(b & Hb & Hn) | (s' & it' & b & Hin & Hb & Hn)].
      * exists s, iterations, b. repeat split; [now left | assumption ..].
      * exists s', it', b. repeat split; [now right | assumption ..].
    + cbn beta. intros n (b & Hb & Hn) (s' & it' & b' & Hin & Hb' & Hn').
      assert (Hs' : In s' (map fst stages)).
      { apply in_map_iff. exists (s', it'). split; [reflexivity | exact Hin]. }
      destruct (block_layer_name_inj activation s b s' b'
                  (stage_flag flags s) (stage_flag flags s') n)
        as [E _]; try assumption.
      * eapply in_range_nonneg; eassumption.
      * apply Hpos. now right.
      * eapply in_range_nonneg; eassumption.
      * now intros ->.
      * subst s'. contradiction.
Qed.

End LoopsWhere.

Section NetworkWhere.

Variable keep : layer -> bool.
Variable block_func : block_builder.
Variable activation : str.
Hypothesis Hbf : well_named_where keep block_func activation.

Variables (num_blocks : list Z) (pooling_func : list str).
Variables (include_top : bool) (classes : Z).
Variables (numerical_names : option (list bool)) (output_activation : option str).

Let flags : list bool :=
  match numerical_names with
  | None => repeat true (List.length num_blocks)
  | Some l => l
  end.

Lemma configured_block_name_not_fixed (n : str) :
  In n (stem_names activation) \/ In n (top_names classes) ->
  configured_block_name activation num_blocks flags n -> False.
Proof.
  intros Hfix (s & it & b & Hin & Hb & Hn).
  eapply (fixed_name_not_block activation classes s b); [| exact Hfix | exact Hn].
  apply (in_map_of_nat (seq 0 (List.length num_blocks))).
  rewrite <- enumerate_fst. apply in_map_iff.
  exists (s, it). split; [reflexivity | exact Hin].
Qed.

Lemma ResNet2D_names_in_where (idf : str) (K_ndim : tensor -> Z)
    (inputs : tensor) (n_filters : Z) :
  names_in_where keep (configured_name activation classes num_blocks flags)
    (ResNet2D idf K_ndim inputs num_blocks block_func activation n_filters
       pooling_func include_top classes numerical_names output_activation).
Proof.
  unfold ResNet2D. fold flags.
  eapply names_in_where_weaken;
    [| eapply names_in_where_bind;
       [ apply names_in_where_of_names_in, stem_names_in
       | intros x _;
         eapply names_in_where_bind;
         [ apply (for_stage_id_names_where keep block_func activation Hbf flags
                    (enumerate num_blocks) n_filters x []);
           rewrite enumerate_fst;
           [apply NoDup_map_of_nat, seq_NoDup | apply in_map_of_nat]
         | intros [y outputs] _;
           instantiate (1 := fun n => In n (top_names classes));
           destruct include_top;
           [ split; rewrite names_where_bind_ret;
             apply (names_in_where_of_names_in keep _ _
                      (top_names_in K_ndim pooling_func classes
                         output_activation y))
           | apply names_in_where_ret ]
         | ]
       | ] ].
  - cbn beta. unfold configured_name, configured_block_name. tauto.
  - cbn beta. intros n Hblock Htop.
    eapply configured_block_name_not_fixed; [right; exact Htop | exact Hblock].
  - cbn beta. intros n Hstem [Hblock | Htop].
    + eapply configured_block_name_not_fixed; [left; exact Hstem | exact Hblock].
    + eapply stem_name_not_top; eassumption.
Qed.

End NetworkWhere.

Lemma NoDup_prefix {A} (l l' : list A) : NoDup (l ++ l') -> NoDup l.
Proof. apply NoDup_app_remove_r. Qed.

(** With an activation called like a branch tag, the name that [basic_3d]
    formats for its last activation is the name it formats for its first
    convolution; this is why the distinctness of all names together is
    proved for the other activation names only. *)
Lemma branch_tag_activation_repeats_conv_name (sc c : str) (first : bool) :
  ~ NoDup (basic_3d_names sc c (lit "branch2a") first).
Proof.
  intros H. unfold basic_3d_names in H.
  change (lit "res" ++ sc ++ c ++ lit "_" ++ lit "branch2a")
    with (lit "res" ++ sc ++ c ++ lit "_branch2a") in H.
  apply NoDup_cons_iff in H as [_ H]. apply NoDup_cons_iff in H as [H _].
  apply H. do 5 apply in_cons. apply in_or_app. right.
  apply in_cons. apply in_eq.
Qed.




(** * Further properties of the assembler and the builders *)

(** ** Arguments the assembler does not read *)

Lemma stem_first_pooling_only (idf : str) (inputs : tensor) (activation : str)
    (n_filters : Z) (p : str) (rest rest' : list str) :
  stem idf inputs activation n_filters (p :: rest)
  = stem idf inputs activation n_filters (p :: rest').
Proof. reflexivity. Qed.

(** X1.  Without a classification head the assembler reads neither
    [classes], nor [output_activation], nor the tensor ranks, nor any entry of
    [pooling_func] after the first: changing them changes nothing, and in
    particular [classes] is not checked. *)
Theorem no_head_ignores_head_arguments
    (idf : str) (K_ndim K_ndim' : tensor -> Z) (inputs : tensor)
    (num_blocks : list Z) (block_func : block_builder) (activation : str)
    (n_filters : Z) (p : str) (rest rest' : list str) (classes classes' : Z)
    (numerical_names : option (list bool))
    (output_activation output_activation' : option str) :
  ResNet2D idf K_ndim inputs num_blocks block_func activation n_filters
    (p :: rest) false classes numerical_names output_activation
  = ResNet2D idf K_ndim' inputs num_blocks block_func activation n_filters
      (p :: rest') false classes' numerical_names output_activation'.
Proof.
  rewrite !ResNet2D_features. unfold features.
  rewrite (stem_first_pooling_only idf inputs activation n_filters p rest rest').
  destruct (bind _ _) as [[[x outs] | e] w]; reflexivity.
Qed.

(** X2.  An empty [pooling_func] stops every construction with an
    [IndexError] at the stem pooling choice, after exactly the stem
    convolution, normalization and activation have been created. *)
Theorem empty_pooling_func_raises_after_stem_activation
    (idf : str) (K_ndim : tensor -> Z) (inputs : tensor)
    (num_blocks : list Z) (block_func : block_builder) (activation : str)
    (n_filters : Z) (include_top : bool) (classes : Z)
    (numerical_names : option (list bool)) (output_activation : option str) :
  ResNet2D idf K_ndim inputs num_blocks block_func activation n_filters
    [] include_top classes numerical_names output_activation
  = (Raise IndexError,
     [ComplexConv2D n_filters (Int 7) (Tuple [2; 2]) (lit "same") false false
        (lit "conv1");
      ComplexBatchNormalization (bn_axis idf) (lit "bn_conv1");
      Activation activation (lit "conv1_" ++ activation)]).
Proof. reflexivity. Qed.

(** ** What a head needs *)

Lemma top_ok_inv (K_ndim : tensor -> Z) (pooling_func : list str) (classes : Z)
    (output_activation : option str) (x y : tensor) :
  fst (top K_ndim pooling_func classes output_activation x) = Ok y ->
  0 < classes /\ exists p0 p1 rest, pooling_func = p0 :: p1 :: rest.
Proof.
  unfold top, assert. rewrite fst_bind.
  destruct (Z.ltb_spec 0 classes) as [Hc | Hc]; cbn [fst ret raise];
    [| discriminate].
  intros H. split; [exact Hc |].
  destruct pooling_func as [| p0 [| p1 rest]]; [| | eauto].
  - rewrite fst_bind in H. discriminate H.
  - rewrite fst_bind in H. discriminate H.
Qed.

(** X3.  A construction with a classification head returns a model only if
    [classes] is positive and [pooling_func] has at least two entries; the
    model then has a single output tensor. *)
Theorem head_success_needs_classes_and_pooling
    (idf : str) (K_ndim : tensor -> Z) (inputs : tensor)
    (num_blocks : list Z) (block_func : block_builder) (activation : str)
    (n_filters : Z) (pooling_func : list str) (classes : Z)
    (numerical_names : option (list bool)) (output_activation : option str)
    (m : Model) :
  fst (ResNet2D idf K_ndim inputs num_blocks block_func activation n_filters
         pooling_func true classes numerical_names output_activation) = Ok m ->
  0 < classes /\
  (exists p0 p1 rest, pooling_func = p0 :: p1 :: rest) /\
  exists y, m = KerasModel inputs (inl y).
Proof.
  rewrite ResNet2D_features, fst_bind.
  destruct (fst (features _ _ _ _ _ _ _ _)) as [[x outs] | e]; [| discriminate].
  rewrite fst_bind.
  destruct (fst (top K_ndim pooling_func classes output_activation x))
    as [y | e] eqn:Ht; [| discriminate].
  cbn. intros [= <-].
  destruct (top_ok_inv _ _ _ _ _ _ Ht) as [Hc Hp]. eauto.
Qed.

Lemma head_success_needs_classes_and_pooling_witness :
  0 < 10 /\
  (exists p0 p1 rest,
      [lit "average"; lit "complex_max"] = p0 :: p1 :: rest).
Proof.
  destruct (head_success_needs_classes_and_pooling (lit "channels_last")
              (fun _ => 4) (Placeholder 0) [1; 2]
              (as_block_func (basic_3d (lit "channels_last"))) (lit "crelu") 16
              [lit "average"; lit "complex_max"] 10 None None
              _ eq_refl) as (H1 & H2 & _).
  split; [exact H1 | exact H2].
Defined.

(** ** The pooling layer of the head *)

(** X4.  When the second entry of [pooling_func] is none of "global_average",
    "complex_average", "complex_max" and "spectral_average", the head (with a
    positive class count) raises nothing and creates no pooling layer: the
    dense layer is applied to the last stage output itself, flattened first if
    it has more than two axes. *)
Theorem unrecognized_head_pooling_is_skipped
    (K_ndim : tensor -> Z) (pooling_func : list str) (classes : Z)
    (output_activation : option str) (x : tensor) (p : str) :
  0 < classes ->
  nth_error pooling_func 1 = Some p ->
  p <> lit "global_average" -> p <> lit "complex_average" ->
  p <> lit "complex_max" -> p <> lit "spectral_average" ->
  top K_ndim pooling_func classes output_activation x
  = (Ok (Out (fc_layer classes output_activation) [flattened K_ndim x]),
     (if 2 <? K_ndim x then [Flatten] else [])
     ++ [fc_layer classes output_activation]).
Proof.
  intros Hc Hp H1 H2 H3 H4.
  apply str_eqb_neq in H1, H2, H3, H4.
  pose proof (getitem_nth_error pooling_func 1 p Hp) as G.
  change (Z.of_nat 1) with 1 in G.
  unfold top, fc_layer, flattened.
  replace (0 <? classes) with true by (symmetry; apply Z.ltb_lt; lia).
  cbn [assert]. rewrite bind_ret_l, G, !bind_ret_l, H1, H2, H3, H4, !bind_ret_l.
  destruct (2 <? K_ndim x); cbn [call ret bind];
    destruct (startswith _ _); reflexivity.
Qed.

Lemma unrecognized_head_pooling_is_skipped_witness :
  top (fun _ => 4) [lit "max"; lit "none"] 3 None (Placeholder 7)
  = (Ok (Out (Dense 3 (lit "softmax") (lit "fc3")) [Out Flatten [Placeholder 7]]),
     [Flatten; Dense 3 (lit "softmax") (lit "fc3")]).
Proof.
  refine (unrecognized_head_pooling_is_skipped (fun _ => 4)
            [lit "max"; lit "none"] 3 None (Placeholder 7) (lit "none")
            _ _ _ _ _ _);
    [lia | reflexivity | discriminate ..].
Defined.

(** ** Stage outputs *)

Lemma for_stage_id_outputs (block_func : block_builder)
    (numerical_names : list bool) (activation : str) (stages : list (Z * Z)) :
  forall (n_filters : Z) (x : tensor) (outputs : list tensor)
         (y : tensor) (outputs' : list tensor),
    fst (for_stage_id block_func numerical_names activation stages n_filters x
           outputs) = Ok (y, outputs') ->
    exists new,
      outputs' = outputs ++ new /\
      List.length new = List.length stages /\
      last new x = y.
Proof.
  induction stages as [| [s n] stages IH];
    intros n_filters x outputs y outputs' H.
  - cbn in H. injection H as <- <-. exists []. now rewrite app_nil_r.
  - cbn [for_stage_id] in H. rewrite fst_bind in H.
    destruct (fst (for_block_id _ _ _ _ _ _ _)) as [x1 | e]; [| discriminate].
    destruct (IH _ _ _ _ _ H) as (new & -> & Hlen & Hlast).
    exists (x1 :: new). rewrite <- app_assoc. repeat split.
    + cbn. now rewrite Hlen.
    + destruct new as [| t new]; [exact Hlast |].
      cbn [last] in *. rewrite <- Hlast.
      clear. revert t. induction new as [| u new IHn]; intros t; [reflexivity |].
      cbn [last]. apply IHn.
Qed.

(** X5.  Without a classification head, a construction that returns a model
    returns exactly one output tensor per entry of [num_blocks]. *)
Theorem one_output_per_stage
    (idf : str) (K_ndim : tensor -> Z) (inputs : tensor)
    (num_blocks : list Z) (block_func : block_builder) (activation : str)
    (n_filters : Z) (pooling_func : list str) (classes : Z)
    (numerical_names : option (list bool)) (output_activation : option str)
    (m : Model) :
  fst (ResNet2D idf K_ndim inputs num_blocks block_func activation n_filters
         pooling_func false classes numerical_names output_activation) = Ok m ->
  exists outputs,
    m = KerasModel inputs (inr outputs) /\
    List.length outputs = List.length num_blocks.
Proof.
  unfold ResNet2D. rewrite fst_bind.
  destruct (fst (stem _ _ _ _ _)) as [x | e]; [| discriminate].
  rewrite fst_bind.
  destruct (fst (for_stage_id _ _ _ _ _ _ _)) as [[y outs] | e] eqn:Hs;
    [| discriminate].
  cbn. intros [= <-]. exists outs. split; [reflexivity |].
  destruct (for_stage_id_outputs _ _ _ _ _ _ _ _ _ Hs) as (new & -> & Hlen & _).
  cbn. rewrite Hlen. unfold enumerate.
  rewrite length_combine, length_map, length_seq. apply Nat.min_id.
Qed.

Lemma one_output_per_stage_witness :
  exists outputs,
    fst (ResNet2D (lit "channels_last") (fun _ => 4) (Placeholder 0) [2; 1; 3]
           (as_block_func (bottleneck_3d (lit "channels_last"))) (lit "crelu") 8
           [lit "max"] false 0 None None)
    = Ok (KerasModel (Placeholder 0) (inr outputs)) /\
    List.length outputs = 3%nat.
Proof.
  destruct (one_output_per_stage (lit "channels_last") (fun _ => 4)
              (Placeholder 0) [2; 1; 3]
              (as_block_func (bottleneck_3d (lit "channels_last")))
              (lit "crelu") 8 [lit "max"] 0 None None _ eq_refl)
    as (outputs & E & Hlen).
  exists outputs. split; [| exact Hlen].
  injection E as <-. reflexivity.
Defined.

(** ** Stages without blocks *)

Lemma range_nonpositive (n : Z) : n <= 0 -> range n = [].
Proof.
  intros H. unfold range. now replace (Z.to_nat n) with 0%nat by lia.
Qed.

Lemma for_stage_id_no_blocks (block_func : block_builder)
    (numerical_names : list bool) (activation : str) (stages : list (Z * Z)) :
  Forall (fun st => snd st <= 0) stages ->
  forall (n_filters : Z) (x : tensor) (outputs : list tensor),
    for_stage_id block_func numerical_names activation stages n_filters x
      outputs
    = ret (x, outputs ++ repeat x (List.length stages)).
Proof.
  induction 1 as [| [s n] stages Hn Hall IH]; intros n_filters x outputs.
  - cbn. now rewrite app_nil_r.
  - cbn [for_stage_id List.length repeat]. cbn [snd] in Hn.
    rewrite (range_nonpositive n Hn). cbn [for_block_id].
    rewrite bind_ret_l, IH, <- app_assoc. reflexivity.
Qed.

(** X6.  When no entry of [num_blocks] is positive, the block builder is
    never called: the stem and the stages create the stem layers only, and
    every stage output is the stem output itself. *)
Theorem network_without_blocks_is_its_stem
    (idf : str) (inputs : tensor) (num_blocks : list Z)
    (block_func : block_builder) (activation : str) (n_filters : Z)
    (pooling_func : list str) (numerical_names : option (list bool)) :
  Forall (fun n => n <= 0) num_blocks ->
  features idf inputs num_blocks block_func activation n_filters pooling_func
    numerical_names
  = bind (stem idf inputs activation n_filters pooling_func)
      (fun x => ret (x, repeat x (List.length num_blocks))).
Proof.
  intros H. unfold features.
  destruct (stem idf inputs activation n_filters pooling_func) as [[x | e] w];
    [| reflexivity].
  cbn [bind].
  rewrite for_stage_id_no_blocks.
  - unfold enumerate.
    rewrite length_combine, length_map, length_seq, Nat.min_id. reflexivity.
  - unfold enumerate. rewrite Forall_forall in *. intros [s n] Hin.
    apply in_combine_r in Hin. cbn. auto.
Qed.

Lemma network_without_blocks_is_its_stem_witness :
  features (lit "channels_last") (Placeholder 0) [0; -2]
    (fun _ _ _ _ _ => raise ValueError) (lit "crelu") 64 [lit "max"] None
  = bind (stem (lit "channels_last") (Placeholder 0) (lit "crelu") 64 [lit "max"])
      (fun x => ret (x, [x; x])).
Proof.
  apply (network_without_blocks_is_its_stem (lit "channels_last")
           (Placeholder 0) [0; -2] (fun _ _ _ _ _ => raise ValueError)
           (lit "crelu") 64 [lit "max"] None).
  repeat constructor; lia.
Defined.

(** ** Which naming flags are read *)

Lemma getitem_of_nat {A} (l : list A) (k : nat) :
  getitem l (Z.of_nat k)
  = match nth_error l k with
    | Some a => ret a
    | None => raise IndexError
    end.
Proof.
  unfold getitem.
  assert (E : (Z.of_nat k <? 0) = false) by (apply Z.ltb_ge; lia).
  rewrite E. cbv zeta. now rewrite E, Nat2Z.id.
Qed.

Lemma for_block_id_flags (block_func : block_builder) (n_filters stage_id : Z)
    (nn nn' : list bool) (activation : str) (block_ids : list Z) :
  ((exists b, In b block_ids /\ 0 < b) ->
   getitem nn stage_id = getitem nn' stage_id) ->
  forall x,
    for_block_id block_func n_filters stage_id nn activation block_ids x
    = for_block_id block_func n_filters stage_id nn' activation block_ids x.
Proof.
  induction block_ids as [| b ids IH]; intros H x; [reflexivity |].
  cbn [for_block_id].
  assert (E : (if 0 <? b then getitem nn stage_id else ret false)
              = (if 0 <? b then getitem nn' stage_id else ret false)).
  { destruct (Z.ltb_spec 0 b) as [Hb | Hb]; [| reflexivity].
    apply H. exists b. split; [now left | exact Hb]. }
  rewrite E. clear E.
  destruct (if 0 <? b then _ else _) as [[v | e] w]; [| reflexivity].
  cbn [bind].
  destruct (block_func _ _ _ _ _) as [[f | e] w1]; [| reflexivity].
  cbn [bind]. destruct (f x) as [[x' | e] w2]; [| reflexivity].
  cbn [bind]. rewrite IH; [reflexivity |].
  intros (b' & Hin & Hb'). apply H. exists b'. split; [now right | exact Hb'].
Qed.

Lemma range_has_positive (n b : Z) : In b (range n) -> 0 < b -> 2 <= n.
Proof.
  unfold range. intros Hin Hb.
  apply in_map_iff in Hin as (k & <- & Hk). apply in_seq in Hk. lia.
Qed.

Lemma for_stage_id_flags (block_func : block_builder) (nn nn' : list bool)
    (activation : str) (l : list Z) :
  forall (k : nat),
    (forall i n, nth_error l i = Some n -> 2 <= n ->
                 nth_error nn (k + i) = nth_error nn' (k + i)) ->
    forall (n_filters : Z) (x : tensor) (outputs : list tensor),
      for_stage_id block_func nn activation
        (combine (map Z.of_nat (seq k (List.length l))) l) n_filters x outputs
      = for_stage_id block_func nn' activation
          (combine (map Z.of_nat (seq k (List.length l))) l) n_filters x outputs.
Proof.
  induction l as [| n l IH]; intros k H n_filters x outputs; [reflexivity |].
  cbn [List.length seq map combine for_stage_id].
  rewrite (for_block_id_flags block_func n_filters (Z.of_nat k) nn nn').
  - destruct (for_block_id _ _ _ _ _ _ _) as [[x' | e] w]; [| reflexivity].
    cbn [bind]. rewrite (IH (S k)); [reflexivity |].
    intros i m Hi Hm. replace (S k + i)%nat with (k + S i)%nat by lia.
    now apply (H (S i) m).
  - intros (b & Hin & Hb). rewrite !getitem_of_nat.
    replace k with (k + 0)%nat by lia.
    rewrite (H 0%nat n eq_refl (range_has_positive n b Hin Hb)). reflexivity.
Qed.

(** X7.  The assembler reads the naming flag of a stage only when the stage
    has at least two blocks: two flag lists that agree at every stage index
    whose block count is 2 or more build the same thing, so entries beyond
    [len(num_blocks)], and the flags of stages with at most one block, are
    irrelevant and may even be missing. *)
Theorem naming_flags_read_only_for_repeated_blocks
    (idf : str) (K_ndim : tensor -> Z) (inputs : tensor)
    (num_blocks : list Z) (block_func : block_builder) (activation : str)
    (n_filters : Z) (pooling_func : list str) (include_top : bool) (classes : Z)
    (nn nn' : list bool) (output_activation : option str) :
  (forall i n, nth_error num_blocks i = Some n -> 2 <= n ->
               nth_error nn i = nth_error nn' i) ->
  ResNet2D idf K_ndim inputs num_blocks block_func activation n_filters
    pooling_func include_top classes (Some nn) output_activation
  = ResNet2D idf K_ndim inputs num_blocks block_func activation n_filters
      pooling_func include_top classes (Some nn') output_activation.
Proof.
  intros H. unfold ResNet2D, enumerate.
  destruct (stem _ _ _ _ _) as [[x | e] w]; [| reflexivity].
  cbn [bind].
  now rewrite (for_stage_id_flags block_func nn nn' activation num_blocks 0 H).
Qed.

Lemma naming_flags_read_only_for_repeated_blocks_witness :
  ResNet2D (lit "channels_last") (fun _ => 2) (Placeholder 0) [1; 3; 0]
    (as_block_func (basic_3d (lit "channels_last"))) (lit "crelu") 64
    [lit "max"; lit "global_average"] true 5 (Some [true; false]) None
  = ResNet2D (lit "channels_last") (fun _ => 2) (Placeholder 0) [1; 3; 0]
      (as_block_func (basic_3d (lit "channels_last"))) (lit "crelu") 64
      [lit "max"; lit "global_average"] true 5 (Some [false; false; true; true])
      None.
Proof.
  apply (naming_flags_read_only_for_repeated_blocks (lit "channels_last")
           (fun _ => 2) (Placeholder 0) [1; 3; 0]
           (as_block_func (basic_3d (lit "channels_last"))) (lit "crelu") 64
           [lit "max"; lit "global_average"] true 5 [true; false]
           [false; false; true; true] None).
  intros [| [| [| i]]] n Hn Hle; cbn in Hn;
    try (destruct i; discriminate Hn);
    try reflexivity; injection Hn as <-; lia.
Defined.

Lemma bind_ext {A B} (m : M A) (f g : A -> M B) :
  (forall a, f a = g a) -> bind m f = bind m g.
Proof.
  intros H. destruct m as [[a | e] w]; cbn; [| reflexivity]. now rewrite H.
Qed.

(** X8.  When [numerical_names] has no entry for a stage that has two or
    more blocks, the stage builds its first block (whose flag is not looked
    up) and then stops with an [IndexError] at the flag lookup for the second
    block, having created the layers of the first block only. *)
Theorem missing_naming_flag_raises_at_second_block
    (block_func : block_builder) (n_filters stage_id : Z)
    (numerical_names : list bool) (activation : str) (iterations : Z)
    (x : tensor) :
  0 <= stage_id ->
  nth_error numerical_names (Z.to_nat stage_id) = None ->
  2 <= iterations ->
  for_block_id block_func n_filters stage_id numerical_names activation
    (range iterations) x
  = bind (block_call block_func n_filters stage_id numerical_names activation
            0 x)
      (fun _ => raise IndexError).
Proof.
  intros Hs Hnn Hn.
  assert (G : getitem numerical_names stage_id = raise IndexError).
  { rewrite <- (Z2Nat.id stage_id Hs), getitem_of_nat, Hnn. reflexivity. }
  unfold range.
  destruct (Z.to_nat iterations) as [| [| k]] eqn:Hk; try lia.
  cbn [seq map]. change (Z.of_nat 0) with 0. change (Z.of_nat 1) with 1.
  rewrite for_block_id_cons. apply bind_ext. intros a.
  cbn [for_block_id]. change (0 <? 1) with true. cbv iota.
  now rewrite G.
Qed.

Lemma missing_naming_flag_raises_at_second_block_witness :
  for_block_id (as_block_func (basic_3d (lit "channels_last"))) 64 1 [true]
    (lit "crelu") (range 3) (Placeholder 0)
  = bind (block_call (as_block_func (basic_3d (lit "channels_last"))) 64 1
            [true] (lit "crelu") 0 (Placeholder 0))
      (fun _ => raise IndexError).
Proof.
  apply (missing_naming_flag_raises_at_second_block
           (as_block_func (basic_3d (lit "channels_last"))) 64 1 [true]
           (lit "crelu") 3 (Placeholder 0)); [lia | reflexivity | lia].
Defined.

(** ** Block characters and block layer names *)

Lemma digits_then_no_digit_head (d rest : str) :
  Forall (fun c => is_digit c = true) d -> d <> [] ->
  no_digit_head (d ++ rest) -> False.
Proof.
  intros Hd Hne H. destruct d as [| c d]; [now elim Hne |].
  apply Forall_inv in Hd. cbn in H. congruence.
Qed.

(** X9.  A block layer name determines the stage and the block it was made
    for, whatever the naming flags: no name made for one (stage, block) pair
    can be made for another, even for a different flag, and for a block index
    above 0 the name determines the flag as well. *)
Theorem block_layer_name_determines_block
    (activation : str) (s b s' b' : Z) (F F' : bool) (n : str) :
  0 <= s -> 0 <= b -> 0 <= s' -> 0 <= b' ->
  block_layer_name activation s b F n ->
  block_layer_name activation s' b' F' n ->
  s = s' /\ b = b' /\ (0 < b -> F = F').
Proof.
  intros Hs Hb Hs' Hb'
    (r & c & suf & Hr & Hc & Hsuf & ->) (r' & c' & suf' & Hr' & Hc' & Hsuf' & E).
  destruct (role_inj _ _ _ _ Hr Hr' E) as [_ E1].
  destruct (str_of_Z_digits (s + 2)) as [Hd _]; [lia |].
  destruct (str_of_Z_digits (s' + 2)) as [Hd' _]; [lia |].
  destruct (block_char_no_digit_head b F c suf Hb Hc) as [Hn _].
  destruct (block_char_no_digit_head b' F' c' suf' Hb' Hc') as [Hn' _].
  destruct (digits_split _ _ _ _ Hd Hd' Hn Hn' E1) as [Es E2].
  apply str_of_Z_inj in Es. assert (s = s') as <- by lia.
  split; [reflexivity |].
  pose proof (suffix_no_digit_head _ _ Hsuf) as Ht.
  pose proof (suffix_no_digit_head _ _ Hsuf') as Ht'.
  destruct (block_char_shape _ _ _ Hc) as [(Hp & HFt & ->) | (Hz & Ho & ->)];
    destruct (block_char_shape _ _ _ Hc') as [(Hp' & HFt' & ->) | (Hz' & Ho' & ->)].
  - apply (f_equal (@tl N)) in E2. cbn [app tl] in E2.
    destruct (str_of_Z_digits b) as [Hdb _]; [lia |].
    destruct (str_of_Z_digits b') as [Hdb' _]; [lia |].
    destruct (digits_split _ _ _ _ Hdb Hdb' Ht Ht' E2) as [Eb _].
    apply str_of_Z_inj in Eb. split; [exact Eb | congruence].
  - exfalso. apply (f_equal (@tl N)) in E2. cbn [app tl] in E2.
    destruct (str_of_Z_digits b) as [Hdb Hne]; [lia |].
    rewrite <- E2 in Ht'.
    exact (digits_then_no_digit_head _ _ Hdb Hne Ht').
  - exfalso. apply (f_equal (@tl N)) in E2. cbn [app tl] in E2.
    destruct (str_of_Z_digits b') as [Hdb' Hne]; [lia |].
    rewrite E2 in Ht.
    exact (digits_then_no_digit_head _ _ Hdb' Hne Ht).
  - apply (f_equal (hd 0%N)) in E2. cbn [app hd] in E2. unfold ord_a in *.
    assert (b = b') as <- by lia.
    split; [reflexivity |]. intros Hpos.
    destruct Hz as [Hz | ->]; [lia |]. destruct Hz' as [Hz' | ->]; [lia |].
    reflexivity.
Qed.

Lemma block_layer_name_determines_block_witness :
  3 = 3 /\ 1 = 1 /\ (0 < 1 -> true = true).
Proof.
  assert (H : block_layer_name (lit "crelu") 3 1 true (lit "bn5b1_branch2c")).
  { exists (lit "bn"), (lit "b1"), (lit "_branch2c").
    repeat split; cbn; auto 15. }
  apply (block_layer_name_determines_block (lit "crelu") 3 1 3 1 true true
           (lit "bn5b1_branch2c")); try lia; exact H.
Defined.

(** X10.  Without numerical naming, the block character of a non-negative
    block index is a lowercase letter exactly for the indices 0 to 25. *)
Theorem letter_block_char_iff_below_26 (b : Z) :
  0 <= b ->
  ((exists c, block_char b false = ret [c] /\ In c lowercase_letters)
   <-> b <= 25).
Proof.
  intros Hb. split.
  - intros (c & Hc & Hin).
    destruct (block_char_shape _ _ _ Hc) as [(_ & [=] & _) | (_ & _ & Ec)].
    apply (f_equal (hd 0%N)) in Ec. cbn [hd] in Ec.
    unfold ord_a in Ec. unfold lowercase_letters in Hin. cbn in Hin.
    repeat (destruct Hin as [Hin | Hin]; [subst c; lia |]). destruct Hin.
  - intros Hle. exists (Z.to_N (ord_a + b)). split.
    + unfold block_char. rewrite andb_false_r.
      apply chr_code_point. unfold ord_a. lia.
    + pose proof (nth_lowercase_letter b (conj Hb Hle)) as H.
      unfold nth_lowercase in H.
      replace (b + 1 <? 1) with false in H by (symmetry; apply Z.ltb_ge; lia).
      eapply nth_error_In. exact H.
Qed.

Lemma letter_block_char_iff_below_26_witness :
  (exists c, block_char 25 false = ret [c] /\ In c lowercase_letters)
  <-> 25 <= 25.
Proof. apply (letter_block_char_iff_below_26 25). lia. Defined.

(** X11.  When the block is to be named by a letter (block index at most 0,
    or numerical naming off), what both builders do is decided by
    [ord('a') + block], before any layer is created: if it does not fit a C
    [int] they fail with an [OverflowError]; if it fits but is not a code
    point they fail with a [ValueError]; otherwise the block character is
    that one code point. *)
Theorem letter_named_builders_need_a_code_point
    (idf : str) (filters stage block : Z) (kernel_size : size_arg)
    (numerical_name : bool) (stride : option size_arg) (activation : str) :
  block <= 0 \/ numerical_name = false ->
  let basic := basic_3d idf filters stage block kernel_size numerical_name
                 stride activation in
  let bottleneck := bottleneck_3d idf filters stage block kernel_size
                      numerical_name stride activation in
  let i := ord_a + block in
  if (i <? -2147483648) || (2147483647 <? i)
  then basic = raise OverflowError /\ bottleneck = raise OverflowError
  else if (0 <=? i) && (i <? 1114112)
       then block_char block numerical_name = ret [Z.to_N i]
       else basic = raise ValueError /\ bottleneck = raise ValueError.
Proof.
  intros H. cbv zeta. unfold basic_3d, bottleneck_3d, block_char.
  assert (E : (0 <? block) && numerical_name = false).
  { destruct H as [H | ->]; [| apply andb_false_r].
    now replace (0 <? block) with false by (symmetry; apply Z.ltb_ge; lia). }
  rewrite E. unfold chr.
  destruct ((ord_a + block <? -2147483648) || (2147483647 <? ord_a + block));
    [split; reflexivity |].
  destruct ((0 <=? ord_a + block) && (ord_a + block <? 1114112));
    [reflexivity | split; reflexivity].
Qed.

Lemma letter_named_builders_need_a_code_point_witness :
  basic_3d (lit "channels_last") 64 0 2147483648 (Int 3) false None (lit "crelu")
    = raise OverflowError /\
  bottleneck_3d (lit "channels_last") 64 0 2147483648 (Int 3) false None
    (lit "crelu") = raise OverflowError.
Proof.
  exact (letter_named_builders_need_a_code_point (lit "channels_last") 64 0
           2147483648 (Int 3) false None (lit "crelu") (or_intror eq_refl)).
Defined.

(** ** The convolutions of a block *)

(** X12.  A basic block creates two main-path convolutions with [filters]
    filters; a bottleneck block creates three, with [filters], [filters] and
    [4 * filters] filters.  The first carries the resolved stride, the others
    the default stride.  Exactly when [block == 0] one more convolution is
    created, for the shortcut: it has the resolved stride of the first
    convolution and the filter count of the last main-path one, so that both
    summands of the block agree. *)
Theorem block_convolution_plan
    (idf : str) (filters stage block : Z) (kernel_size : size_arg)
    (numerical_name : bool) (stride : option size_arg) (activation : str)
    (f : tensor -> M tensor) (x : tensor) :
  let st := Some (resolve_stride stride stage block) in
  (fst (basic_3d idf filters stage block kernel_size numerical_name stride
          activation) = Ok f ->
   conv3d_layers (created (f x))
   = [(filters, st); (filters, None)]
     ++ (if block =? 0 then [(filters, st)] else [])) /\
  (fst (bottleneck_3d idf filters stage block kernel_size numerical_name stride
          activation) = Ok f ->
   conv3d_layers (created (f x))
   = [(filters, st); (filters, None); (filters * 4, Some (Tuple [1; 1]))]
     ++ (if block =? 0 then [(filters * 4, st)] else [])).
Proof.
  cbv zeta. unfold basic_3d, bottleneck_3d.
  split; destruct (block_char block numerical_name) as [[c | e] w];
    cbn [bind ret fst]; try discriminate; intros [= <-];
    unfold layer_activation, call, created;
    destruct (block =? 0); reflexivity.
Qed.

Lemma block_convolution_plan_witness :
  exists f,
    fst (bottleneck_3d (lit "channels_last") 64 2 0 (Int 3) false None
           (lit "crelu")) = Ok f /\
    conv3d_layers (created (f (Placeholder 0)))
    = [(64, Some (Int 2)); (64, None); (256, Some (Tuple [1; 1]));
       (256, Some (Int 2))].
Proof.
  eexists. split; [reflexivity |].
  apply (proj2 (block_convolution_plan (lit "channels_last") 64 2 0 (Int 3)
                  false None (lit "crelu") _ (Placeholder 0))).
  reflexivity.
Defined.

(** ** The output is computed from the input *)

Lemma subtensor_trans (x y z : tensor) :
  subtensor x y -> subtensor y z -> subtensor x z.
Proof.
  intros Hxy Hyz. induction Hyz as [| l ts t Hin _ IH]; [exact Hxy |].
  eapply sub_out; eassumption.
Qed.

Ltac follow_first_inbound :=
  repeat first [ apply sub_here
               | eapply sub_out; [left; reflexivity |] ].

Lemma basic_3d_connecting (idf : str) :
  connecting (as_block_func (basic_3d idf)).
Proof.
  intros filters stage block nn activation f x y.
  unfold as_block_func, basic_3d.
  destruct (block_char block nn) as [[c | e] w]; cbn [bind ret fst];
    [| discriminate].
  intros [= <-]. unfold layer_activation, call.
  destruct (block =? 0); cbn [bind ret fst]; intros [= <-];
    follow_first_inbound.
Qed.

Lemma bottleneck_3d_connecting (idf : str) :
  connecting (as_block_func (bottleneck_3d idf)).
Proof.
  intros filters stage block nn activation f x y.
  unfold as_block_func, bottleneck_3d.
  destruct (block_char block nn) as [[c | e] w]; cbn [bind ret fst];
    [| discriminate].
  intros [= <-]. unfold layer_activation, call.
  destruct (block =? 0); cbn [bind ret fst]; intros [= <-];
    follow_first_inbound.
Qed.

Lemma stem_connected (idf : str) (inputs : tensor) (activation : str)
    (n_filters : Z) (pooling_func : list str) (y : tensor) :
  fst (stem idf inputs activation n_filters pooling_func) = Ok y ->
  subtensor inputs y.
Proof.
  unfold stem, layer_activation, call.
  destruct (getitem_cases pooling_func 0) as [[p ->] | ->];
    cbn [bind ret raise fst]; [| discriminate].
  destruct (str_eqb p (lit "max")); cbn [bind ret raise fst];
    [| destruct (str_eqb p (lit "average")); cbn [bind ret raise fst]];
    intros [= <-]; follow_first_inbound.
Qed.

Lemma top_connected (K_ndim : tensor -> Z) (pooling_func : list str)
    (classes : Z) (output_activation : option str) (x y : tensor) :
  fst (top K_ndim pooling_func classes output_activation x) = Ok y ->
  subtensor x y.
Proof.
  unfold top, assert, call.
  destruct (0 <? classes); cbn [bind ret raise fst]; [| discriminate].
  destruct (getitem_cases pooling_func 1) as [[p ->] | ->];
    cbn [bind ret raise fst]; [| discriminate].
  repeat (match goal with
          | |- context [if ?b then _ else _] => destruct b
          end; cbn [bind ret raise fst]);
    intros [= <-]; follow_first_inbound.
Qed.

Section Connected.

Variable block_func : block_builder.
Hypothesis Hbf : connecting block_func.
Variables (numerical_names : list bool) (activation : str).

Lemma for_block_id_connected (n_filters stage_id : Z) (block_ids : list Z) :
  forall x y,
    fst (for_block_id block_func n_filters stage_id numerical_names activation
           block_ids x) = Ok y ->
    subtensor x y.
Proof.
  induction block_ids as [| b ids IH]; intros x y.
  - cbn. intros [= <-]. apply sub_here.
  - cbn [for_block_id]. rewrite fst_bind.
    match goal with
    | |- match fst ?m with _ => _ end = _ -> _ =>
        destruct (fst m) as [nn | e]; [| discriminate]
    end.
    rewrite fst_bind.
    destruct (fst (block_func _ _ _ _ _)) as [f | e] eqn:Hf; [| discriminate].
    rewrite fst_bind.
    destruct (fst (f x)) as [x' | e] eqn:Hx; [| discriminate].
    intros H.
    eapply subtensor_trans; [eapply Hbf; eassumption | now apply IH].
Qed.

Lemma for_stage_id_connected (root : tensor) (stages : list (Z * Z)) :
  forall n_filters x outputs y outputs',
    subtensor root x ->
    Forall (subtensor root) outputs ->
    fst (for_stage_id block_func numerical_names activation stages n_filters x
           outputs) = Ok (y, outputs') ->
    subtensor root y /\ Forall (subtensor root) outputs'.
Proof.
  induction stages as [| [s n] stages IH];
    intros n_filters x outputs y outputs' Hx Hall.
  - cbn. intros [= <- <-]. split; assumption.
  - cbn [for_stage_id]. rewrite fst_bind.
    destruct (fst (for_block_id _ _ _ _ _ _ _)) as [x1 | e] eqn:Hb;
      [| discriminate].
    intros H. apply for_block_id_connected in Hb.
    assert (Hx1 : subtensor root x1) by (eapply subtensor_trans; eassumption).
    apply (IH (n_filters * 2) x1 (outputs ++ [x1]) y outputs' Hx1); [| exact H].
    apply Forall_app. split; [exact Hall | now constructor].
Qed.

End Connected.

(** X13.  With either builder of [resnet_blocks_3d.py], every tensor a model
    outputs is computed from the input tensor: the classification output when
    there is a head, and each stage output when there is none. *)
Theorem model_outputs_computed_from_inputs
    (idf : str) (K_ndim : tensor -> Z) (inputs : tensor)
    (num_blocks : list Z) (block_func : block_builder) (activation : str)
    (n_filters : Z) (pooling_func : list str) (include_top : bool) (classes : Z)
    (numerical_names : option (list bool)) (output_activation : option str)
    (model_inputs : tensor) (model_outputs : tensor + list tensor) :
  block_func = as_block_func (basic_3d idf) \/
  block_func = as_block_func (bottleneck_3d idf) ->
  fst (ResNet2D idf K_ndim inputs num_blocks block_func activation n_filters
         pooling_func include_top classes numerical_names output_activation)
    = Ok (KerasModel model_inputs model_outputs) ->
  model_inputs = inputs /\
  match model_outputs with
  | inl y => subtensor inputs y
  | inr outputs => Forall (subtensor inputs) outputs
  end.
Proof.
  intros Hb.
  assert (Hbf : connecting block_func).
  { destruct Hb as [-> | ->];
      [apply basic_3d_connecting | apply bottleneck_3d_connecting]. }
  unfold ResNet2D. rewrite fst_bind.
  destruct (fst (stem _ _ _ _ _)) as [x | e] eqn:Hstem; [| discriminate].
  apply stem_connected in Hstem.
  rewrite fst_bind.
  destruct (fst (for_stage_id _ _ _ _ _ _ _)) as [[y outs] | e] eqn:Hs;
    [| discriminate].
  destruct (for_stage_id_connected block_func Hbf _ activation inputs _ _ _ _ _ _
              Hstem (Forall_nil _) Hs) as [Hy Houts].
  destruct include_top.
  - rewrite fst_bind.
    destruct (fst (top _ _ _ _ _)) as [t | e] eqn:Ht; [| discriminate].
    cbn. intros [= <- <-]. split; [reflexivity |].
    apply top_connected in Ht. eapply subtensor_trans; eassumption.
  - cbn. intros [= <- <-]. split; [reflexivity | exact Houts].
Qed.

Lemma model_outputs_computed_from_inputs_witness :
  exists y,
    fst (ResNet2D (lit "channels_last") (fun _ => 2) (Placeholder 0) [2; 1]
           (as_block_func (basic_3d (lit "channels_last"))) (lit "crelu") 16
           [lit "max"; lit "global_average"] true 4 None None)
    = Ok (KerasModel (Placeholder 0) (inl y)) /\
    subtensor (Placeholder 0) y.
Proof.
  eexists. split; [reflexivity |].
  exact (proj2 (model_outputs_computed_from_inputs (lit "channels_last")
                  (fun _ => 2) (Placeholder 0) [2; 1]
                  (as_block_func (basic_3d (lit "channels_last")))
                  (lit "crelu") 16 [lit "max"; lit "global_average"] true 4
                  None None _ (inl _) (or_introl eq_refl) eq_refl)).
Defined.

(** ** The layers of a block *)

(** X14.  The builders themselves create no layer, whether they return a
    block or fail: layers are created only when the returned block is applied.
    A block whose application completes has then created exactly 9 layers
    (basic) or 11 layers (bottleneck), and 2 more for the projection shortcut
    when [block == 0]. *)
Theorem builders_create_no_layer_and_blocks_a_fixed_number
    (idf : str) (filters stage block : Z) (kernel_size : size_arg)
    (numerical_name : bool) (stride : option size_arg) (activation : str) :
  let basic := basic_3d idf filters stage block kernel_size numerical_name
                 stride activation in
  let bottleneck := bottleneck_3d idf filters stage block kernel_size
                      numerical_name stride activation in
  created basic = [] /\
  created bottleneck = [] /\
  forall f x y,
    fst (f x) = Ok y ->
    (fst basic = Ok f ->
     List.length (created (f x)) = (9 + (if (block =? 0)%Z then 2 else 0))%nat) /\
    (fst bottleneck = Ok f ->
     List.length (created (f x)) = (11 + (if (block =? 0)%Z then 2 else 0))%nat).
Proof.
  cbv zeta. unfold basic_3d, bottleneck_3d.
  pose proof (block_char_created block numerical_name) as Hw.
  destruct (block_char block numerical_name) as [[c | e] w]; cbn in Hw; subst w;
    cbn [bind ret fst created snd app].
  - repeat split; intros [= <-]; unfold layer_activation, call;
      destruct (block =? 0); reflexivity.
  - repeat split; discriminate.
Qed.

Lemma builders_create_no_layer_and_blocks_a_fixed_number_witness :
  exists f,
    fst (bottleneck_3d (lit "channels_last") 64 1 0 (Int 3) false None
           (lit "crelu")) = Ok f /\
    List.length (created (f (Placeholder 0))) = 13%nat.
Proof.
  destruct (builders_return (lit "channels_last") 64 1 0 (Int 3) false None
              (lit "crelu")) as [_ [f Hf]]; [lia |].
  exists f. split; [now rewrite Hf |].
  destruct (builders_create_no_layer_and_blocks_a_fixed_number
              (lit "channels_last") 64 1 0 (Int 3) false None (lit "crelu"))
    as (_ & _ & H).
  assert (Hy : exists y, fst (f (Placeholder 0)) = Ok y).
  { cbv in Hf. injection Hf as <-. eexists. reflexivity. }
  destruct Hy as [y Hy].
  apply (H f (Placeholder 0) y Hy). now rewrite Hf.
Defined.
